(** * termlib: terminal mode control and the query/response layer

    A shallow embedding of [src/termlib.py] (class [TerminalContext]):
    the Python built-ins the parsers rely on, a model of the POSIX
    terminal interface the class calls into, the methods of the class
    as computations in a state-and-exception monad, and the properties
    of the mode controller and of the query engine. *)

From Stdlib Require Import ZArith NArith QArith Qround List Bool Lia.
From Stdlib Require Import Strings.String Strings.Ascii Strings.Byte Strings.HexString.
From stdpp Require Import base decidable option list gmap.

Local Open Scope Z_scope.

(** ** Python built-ins used by the module *)

Module Py.

(** A Python [str] is a sequence of Unicode code points, a Python
    [bytes] a sequence of octets. *)
Definition str := list N.
Definition bytes := list byte.

(** Literals: an ASCII string constant read as [str] or as [bytes]. *)
Definition b (s : string) : bytes := list_byte_of_string s.
Definition u (s : string) : str := map Byte.to_N (list_byte_of_string s).

(** The escape sequences of the source written as octets:
    [\x1b], [\\] and [\x07]. *)
Definition ESC : byte := x1b.
Definition BSL : byte := x5c.
Definition BEL : byte := x07.

(** The exceptions the modelled code can meet; [UserError] stands for
    whatever a caller raises. *)
Inductive exn :=
| TypeError
| ValueError
| UnicodeEncodeError
| OverflowError
| OSError
| TermiosError
| StructError
| KeyboardInterrupt
| UserError (tag : nat).

(** Outcome of an expression: a value or a raised exception. *)
Inductive res (A : Type) :=
| Val (a : A)
| Exc (e : exn).
Arguments Val {A} a.
Arguments Exc {A} e.

Definition res_bind {A B} (r : res A) (k : A -> res B) : res B :=
  match r with
  | Val a => k a
  | Exc e => Exc e
  end.

(** [[f(v) for v in l]]: the first exception aborts the comprehension. *)
Fixpoint comprehension {A B} (f : A -> res B) (l : list A) : res (list B) :=
  match l with
  | [] => Val []
  | a :: t =>
      res_bind (f a) (fun x =>
      res_bind (comprehension f t) (fun xs => Val (x :: xs)))
  end.

(** [a, b = l] *)
Definition unpack2 {A} (l : list A) : res (A * A) :=
  match l with
  | [x; y] => Val (x, y)
  | _ => Exc ValueError
  end.

(** [a, b, c = l] *)
Definition unpack3 {A} (l : list A) : res (A * A * A) :=
  match l with
  | [x; y; z] => Val (x, y, z)
  | _ => Exc ValueError
  end.

(** *** Sequence operations *)

(** [s.startswith(p)] *)
Fixpoint startswith (p s : bytes) : bool :=
  match p, s with
  | [], _ => true
  | _ :: _, [] => false
  | x :: p', y :: s' => Byte.eqb x y && startswith p' s'
  end.

(** [s.endswith(p)] *)
Definition endswith (p s : bytes) : bool := startswith (rev p) (rev s).

Definition mem (c : byte) (chars : bytes) : bool := existsb (Byte.eqb c) chars.

Fixpoint lstrip (chars s : bytes) : bytes :=
  match s with
  | [] => []
  | c :: t => if mem c chars then lstrip chars t else s
  end.

(** [s.rstrip(chars)]: drops every trailing octet that occurs in
    [chars]. *)
Definition rstrip (chars s : bytes) : bytes := rev (lstrip chars (rev s)).

(** [s.split(sep)] for a separator of one octet. *)
Fixpoint split (sep : byte) (s : bytes) : list bytes :=
  match s with
  | [] => [[]]
  | c :: t =>
      if Byte.eqb c sep then [] :: split sep t
      else match split sep t with
           | w :: ws => (c :: w) :: ws
           | [] => [[c]]
           end
  end.

(** Slice bounds: a negative index counts from the end, and the result
    is clamped to [0 .. len]. *)
Definition clamp (len i : Z) : Z :=
  let j := if i <? 0 then i + len else i in
  if j <? 0 then 0 else if len <? j then len else j.

(** [s[lo:hi]], either bound possibly omitted. *)
Definition slice {A} (lo hi : option Z) (s : list A) : list A :=
  let len := Z.of_nat (length s) in
  let i := match lo with Some i => clamp len i | None => 0 end in
  let j := match hi with Some j => clamp len j | None => len end in
  take (Z.to_nat (j - i)) (drop (Z.to_nat i) s).

(** *** [int(v)] and [int(v, 16)] on bytes *)

(** [Py_ISSPACE]: tab, line feed, vertical tab, form feed, carriage
    return, space. *)
Definition is_space (c : byte) : bool :=
  let n := Z.of_N (Byte.to_N c) in
  ((9 <=? n) && (n <=? 13)) || (n =? 32).

(** The value of a digit character, for bases up to 36. *)
Definition digit_value (c : byte) : option Z :=
  let n := Z.of_N (Byte.to_N c) in
  if (48 <=? n) && (n <=? 57) then Some (n - 48)
  else if (97 <=? n) && (n <=? 122) then Some (n - 87)
  else if (65 <=? n) && (n <=? 90) then Some (n - 55)
  else None.

Fixpoint lstrip_space (s : bytes) : bytes :=
  match s with
  | [] => []
  | c :: t => if is_space c then lstrip_space t else s
  end.

Definition is_underscore (c : byte) : bool := Byte.eqb c x5f.

(** The digit loop: digits below [base], single underscores between
    them.  [prev_us] tells that the previous character was an
    underscore.  Returns the value read and the unread rest, or [None]
    on a doubled or trailing underscore. *)
Fixpoint scan_digits (base : Z) (prev_us : bool) (acc : Z) (s : bytes)
  : option (Z * bytes) :=
  match s with
  | [] => if prev_us then None else Some (acc, [])
  | c :: t =>
      if is_underscore c then
        if prev_us then None else scan_digits base true acc t
      else
        match digit_value c with
        | Some d =>
            if d <? base then scan_digits base false (acc * base + d) t
            else if prev_us then None else Some (acc, s)
        | None => if prev_us then None else Some (acc, s)
        end
  end.

(** Optional sign. *)
Definition read_sign (s : bytes) : Z * bytes :=
  match s with
  | c :: t =>
      if Byte.eqb c x2b then (1, t)
      else if Byte.eqb c x2d then (-1, t)
      else (1, s)
  | [] => (1, s)
  end.

(** With base 16 a [0x] or [0X] prefix is skipped, and one underscore
    after it. *)
Definition skip_prefix (base : Z) (s : bytes) : bytes :=
  match s with
  | c0 :: c1 :: t =>
      if (base =? 16) && Byte.eqb c0 x30 && (Byte.eqb c1 x78 || Byte.eqb c1 x58)
      then match t with
           | c2 :: t' => if is_underscore c2 then t' else t
           | [] => t
           end
      else s
  | _ => s
  end.

(** [int(s, base)] for [s : bytes] and an explicit base 10 or 16:
    surrounding white space, a sign, the base prefix, then digits;
    anything else is a [ValueError]. *)
Definition int (base : Z) (s : bytes) : res Z :=
  let s1 := lstrip_space s in
  let '(sign, s2) := read_sign s1 in
  let s3 := skip_prefix base s2 in
  match s3 with
  | [] => Exc ValueError
  | c :: _ =>
      if is_underscore c then Exc ValueError
      else
        match scan_digits base false 0 s3 with
        | None => Exc ValueError
        | Some (v, rest) =>
            if (length rest =? length s3)%nat then Exc ValueError
            else match lstrip_space rest with
                 | [] => Val (sign * v)
                 | _ :: _ => Exc ValueError
                 end
        end
  end.

(** *** [hex], [zfill] and text *)

(** [hex(n)]: [0x] and lowercase digits, a minus sign first for a
    negative number. *)
Definition hex (n : Z) : str := u (HexString.of_Z n).

(** [s.zfill(width)]: zeros on the left up to [width], after the sign
    if there is one. *)
Definition zfill (width : nat) (s : str) : str :=
  if (width <=? length s)%nat then s
  else
    let fill := repeat 48%N (width - length s) in
    match s with
    | c :: t => if (c =? 43)%N || (c =? 45)%N then c :: fill ++ t else fill ++ s
    | [] => fill
    end.

(** [a == b] on [str] *)
Definition str_eqb (x y : str) : bool := bool_decide (x = y).

(** *** [s.encode('utf-8')] *)

Definition octet (n : N) : byte :=
  match Byte.of_N (n mod 256) with
  | Some c => c
  | None => x00
  end.

(** One code point.  Surrogates cannot be encoded; a [str] holds no
    code point above [0x10FFFF]. *)
Definition encode_char (c : N) : res bytes :=
  (if c <? 0x80 then Val [octet c]
   else if c <? 0x800 then
     Val [octet (N.lor 0xC0 (N.shiftr c 6));
          octet (N.lor 0x80 (N.land c 0x3F))]
   else if c <? 0x10000 then
     if (0xD800 <=? c) && (c <=? 0xDFFF) then Exc UnicodeEncodeError
     else
       Val [octet (N.lor 0xE0 (N.shiftr c 12));
            octet (N.lor 0x80 (N.land (N.shiftr c 6) 0x3F));
            octet (N.lor 0x80 (N.land c 0x3F))]
   else if c <? 0x110000 then
     Val [octet (N.lor 0xF0 (N.shiftr c 18));
          octet (N.lor 0x80 (N.land (N.shiftr c 12) 0x3F));
          octet (N.lor 0x80 (N.land (N.shiftr c 6) 0x3F));
          octet (N.lor 0x80 (N.land c 0x3F))]
   else Exc UnicodeEncodeError)%N.

Fixpoint encode_utf8 (s : str) : res bytes :=
  match s with
  | [] => Val []
  | c :: t =>
      res_bind (encode_char c) (fun x =>
      res_bind (encode_utf8 t) (fun xs => Val (x ++ xs)))
  end.

(** *** UTF-8 read back

    The decoder of the standard, written apart from the encoder: the
    lead octet gives the length, every further octet is [10xxxxxx],
    and a code point is refused when a shorter form exists, when it is
    a surrogate or when it lies above [0x10FFFF]. *)

(** The six payload bits of a continuation octet. *)
Definition continuation (c : byte) : option N :=
  let n := Byte.to_N c in
  if ((0x80 <=? n) && (n <? 0xC0))%N then Some (N.land n 0x3F) else None.

(** The first code point of [s] and what follows it. *)
Definition decode_one (s : bytes) : option (N * bytes) :=
  match s with
  | [] => None
  | c0 :: t =>
      let n0 := Byte.to_N c0 in
      (if n0 <? 0x80 then Some (n0, t)
       else if n0 <? 0xC0 then None
       else if n0 <? 0xE0 then
         match t with
         | c1 :: t1 =>
             match continuation c1 with
             | Some x1 =>
                 let c := N.lor (N.shiftl (N.land n0 0x1F) 6) x1 in
                 if c <? 0x80 then None else Some (c, t1)
             | None => None
             end
         | _ => None
         end
       else if n0 <? 0xF0 then
         match t with
         | c1 :: c2 :: t2 =>
             match continuation c1, continuation c2 with
             | Some x1, Some x2 =>
                 let c := N.lor (N.shiftl (N.land n0 0x0F) 12)
                                (N.lor (N.shiftl x1 6) x2) in
                 if c <? 0x800 then None
                 else if (0xD800 <=? c) && (c <=? 0xDFFF) then None
                 else Some (c, t2)
             | _, _ => None
             end
         | _ => None
         end
       else if n0 <? 0xF8 then
         match t with
         | c1 :: c2 :: c3 :: t3 =>
             match continuation c1, continuation c2, continuation c3 with
             | Some x1, Some x2, Some x3 =>
                 let c := N.lor (N.shiftl (N.land n0 0x07) 18)
                                (N.lor (N.shiftl x1 12)
                                       (N.lor (N.shiftl x2 6) x3)) in
                 if c <? 0x10000 then None
                 else if 0x10FFFF <? c then None
                 else Some (c, t3)
             | _, _, _ => None
             end
         | _ => None
         end
       else None)%N
  end.

(** [s.decode('utf-8')], [None] for octets that are no UTF-8.  Every
    round takes at least one octet, so [length s] rounds are enough. *)
Fixpoint decode_loop (fuel : nat) (s : bytes) : option str :=
  match s with
  | [] => Some []
  | _ :: _ =>
      match fuel with
      | O => None
      | S fuel' =>
          match decode_one s with
          | Some (c, rest) =>
              match decode_loop fuel' rest with
              | Some cs => Some (c :: cs)
              | None => None
              end
          | None => None
          end
      end
  end.

Definition decode_utf8 (s : bytes) : option str := decode_loop (length s) s.

(** [f] holds of every number below [k]. *)
Fixpoint all_below (k : nat) (f : N -> bool) : bool :=
  match k with
  | O => true
  | S k' => f (N.of_nat k') && all_below k' f
  end.

(** The lead octet made of [tag] and the bits [h] lies in [lo, hi)
    and gives [h] back under [mask]. *)
Definition is_lead (tag mask lo hi h : N) : bool :=
  let n0 := Byte.to_N (octet (N.lor tag h)) in
  ((lo <=? n0) && (n0 <? hi) && (N.land n0 mask =? h))%N.

(** The lead octet [c0], when it lies in [lo, hi), is made of [tag]
    and the bits it holds under [mask]. *)
Definition lead_back (tag mask lo hi : N) (c0 : byte) : bool :=
  let n0 := Byte.to_N c0 in
  (if (lo <=? n0) && (n0 <? hi)
   then Byte.eqb (octet (N.lor tag (N.land n0 mask))) c0
        && (N.land n0 mask <=? mask)
   else true)%N.

(** The argument type [Union[str, bytes]]. *)
Inductive str_or_bytes :=
| Str (s : str)
| Bytes (d : bytes).

(** [s if isinstance(s, bytes) else s.encode('utf-8')] *)
Definition as_bytes (s : str_or_bytes) : res bytes :=
  match s with
  | Bytes d => Val d
  | Str t => encode_utf8 t
  end.

End Py.

(** ** The terminal interface of the operating system *)

Module Posix.
Import Py.

(** The attribute set [tcgetattr] returns:
    [[iflag, oflag, cflag, lflag, ispeed, ospeed, cc]]. *)
Record termios := Termios {
  c_iflag : Z;
  c_oflag : Z;
  c_cflag : Z;
  c_lflag : Z;
  c_ispeed : Z;
  c_ospeed : Z;
  c_cc : list Z
}.

Inductive optional_action := TCSANOW | TCSADRAIN | TCSAFLUSH.

(** The calls a program makes on a descriptor, with their arguments. *)
Inductive call :=
| Isatty (fd : Z)
| TcGetAttr (fd : Z)
| TcSetAttr (fd : Z) (when : optional_action) (a : termios)
| IoctlWinsz (fd : Z)
| Write (fd : Z) (data : bytes)
| Select (fd : Z) (timeout : option Q)
| Read (fd : Z) (amount : nat)
| Close (fd : Z).

(** One terminal device and the descriptors open on it.
    - [ttys]: the descriptors that are open and refer to the terminal;
    - [attr]: the attribute set of the line discipline;
    - [winsize]: the kernel's [struct winsize] as (row, col, xpixel,
      ypixel), [None] when the TIOCGWINSZ request fails;
    - [accepts]: how many octets the successive [write] calls take at
      most (every octet once the list is used up);
    - [arrivals]: what the terminal delivers during the successive
      waits of [select], one entry for each wait with a timeout
      (nothing once the list is used up); a wait without a timeout
      goes through the entries up to the first that is not empty;
    - [pending]: input queued on the descriptor and not yet read;
    - [sent]: every octet transmitted to the terminal so far;
    - [trace]: the calls made so far, oldest first. *)
Record world := World {
  ttys : gset Z;
  attr : termios;
  winsize : option (Z * Z * Z * Z);
  accepts : list nat;
  arrivals : list bytes;
  pending : bytes;
  sent : bytes;
  trace : list call
}.

Definition sys (A : Type) := world -> res A * world.

Definition log (c : call) (w : world) : world :=
  World (ttys w) (attr w) (winsize w) (accepts w) (arrivals w) (pending w)
        (sent w) (trace w ++ [c]).

Definition is_open (fd : Z) (w : world) : bool := bool_decide (fd ∈ ttys w).

(** A descriptor is a C [int].  The descriptors open on the terminal
    are numbers the kernel handed out: C [int]s, and below the limit
    of [select]. *)
Definition c_int (n : Z) : bool := (- 2 ^ 31 <=? n) && (n <? 2 ^ 31).

(** [os.isatty(fd)]: true on a descriptor open on the terminal, false
    on any other C [int]; a number that is no C [int] is refused with
    [OverflowError]. *)
Definition isatty (fd : Z) : sys bool :=
  fun w =>
    if is_open fd w then (Val true, log (Isatty fd) w)
    else if c_int fd then (Val false, log (Isatty fd) w)
    else (Exc OverflowError, log (Isatty fd) w).

(** [termios.tcgetattr(fd)] *)
Definition tcgetattr (fd : Z) : sys termios :=
  fun w =>
    let w := log (TcGetAttr fd) w in
    if is_open fd w then (Val (attr w), w) else (Exc TermiosError, w).

(** [termios.tcsetattr(fd, when, attributes)] *)
Definition tcsetattr (fd : Z) (when : optional_action) (a : termios) : sys unit :=
  fun w =>
    let w := log (TcSetAttr fd when a) w in
    if is_open fd w then
      (Val tt, World (ttys w) a (winsize w) (accepts w) (arrivals w)
                     (pending w) (sent w) (trace w))
    else (Exc TermiosError, w).

(** Flag bits and control-character slots of Linux. *)
Definition ECHO : Z := 8.
Definition ICANON : Z := 2.
Definition VTIME : nat := 5.
Definition VMIN : nat := 6.

(** The attribute change of [tty.setcbreak], as the standard library
    has long made it: echo and canonical mode off, reads return after
    one octet. *)
Definition cbreak_attr (a : termios) : termios :=
  Termios (c_iflag a) (c_oflag a) (c_cflag a)
          (Z.land (c_lflag a) (Z.lnot (Z.lor ECHO ICANON)))
          (c_ispeed a) (c_ospeed a)
          (<[VTIME := 0]> (<[VMIN := 1]> (c_cc a))).

(** [tty.setcbreak(fd, when)]: reads the attributes, changes them and
    writes them back. *)
Definition setcbreak (fd : Z) (when : optional_action) : sys unit :=
  fun w =>
    match tcgetattr fd w with
    | (Val mode, w1) => tcsetattr fd when (cbreak_attr mode) w1
    | (Exc e, w1) => (Exc e, w1)
    end.

(** [struct.pack('H', v)] and [struct.unpack('H', _)] in the byte order
    of the machine (little endian here; the kernel fills the buffer in
    the same order). *)
Definition pack_H (v : Z) : bytes :=
  [octet (Z.to_N (v mod 256)); octet (Z.to_N ((v / 256) mod 256))].

Definition unpack_H (lo hi : byte) : Z :=
  Z.of_N (Byte.to_N lo) + 256 * Z.of_N (Byte.to_N hi).

Definition pack_HHHH (v : Z * Z * Z * Z) : bytes :=
  let '(a, b, c, d) := v in pack_H a ++ pack_H b ++ pack_H c ++ pack_H d.

Definition unpack_HHHH (s : bytes) : res (Z * Z * Z * Z) :=
  match s with
  | [a0; a1; b0; b1; c0; c1; d0; d1] =>
      Val (unpack_H a0 a1, unpack_H b0 b1, unpack_H c0 c1, unpack_H d0 d1)
  | _ => Exc StructError
  end.

(** [fcntl.ioctl(fd, TIOCGWINSZ, buf)]: the buffer filled with the
    window size. *)
Definition ioctl_TIOCGWINSZ (fd : Z) (buf : bytes) : sys bytes :=
  fun w =>
    let w := log (IoctlWinsz fd) w in
    if is_open fd w then
      match winsize w with
      | Some ws => (Val (pack_HHHH ws), w)
      | None => (Exc OSError, w)
      end
    else (Exc OSError, w).

(** [os.write(fd, data)]: takes a prefix of [data] and returns its
    length. *)
Definition os_write (fd : Z) (data : bytes) : sys nat :=
  fun w =>
    let w := log (Write fd data) w in
    if is_open fd w then
      let n := match accepts w with
               | k :: _ => Nat.min k (length data)
               | [] => length data
               end in
      (Val n, World (ttys w) (attr w) (winsize w) (tail (accepts w))
                    (arrivals w) (pending w) (sent w ++ take n data) (trace w))
    else (Exc OSError, w).

Definition nonempty {A} (l : list A) : bool :=
  match l with [] => false | _ :: _ => true end.

(** The timeout of [select] is a number of seconds, a float in the
    source and a rational here.  The interpreter turns it into
    nanoseconds in 64 bits, rounding away from zero. *)
Definition round_away (q : Q) : Z :=
  if Qnum q <? 0 then Qfloor q else Qceiling q.

Definition clock_ns (t : Q) : Z := round_away (t * 1000000000).

(** What [select] says of its timeout before it waits: a number of
    seconds that does not fit the clock is an [OverflowError], a
    negative one a [ValueError]; [None] and the rest pass. *)
Definition timeout_check (timeout : option Q) : option exn :=
  match timeout with
  | None => None
  | Some t =>
      let ns := clock_ns t in
      if (ns <? - 2 ^ 63) || (2 ^ 63 <=? ns) then Some OverflowError
      else if ns <? 0 then Some ValueError
      else None
  end.

(** The first delivery of the terminal that is not empty, and the
    deliveries after it. *)
Fixpoint next_input (arr : list bytes) : option (bytes * list bytes) :=
  match arr with
  | [] => None
  | a :: rest => if nonempty a then Some (a, rest) else next_input rest
  end.

(** [select([fd], [], [], timeout)], reduced to the truth value of its
    first result.  The timeout is checked first.  Input already queued
    makes the descriptor readable at once.  Otherwise a call with a
    timeout waits for what the terminal delivers next, and the wait
    expires when that is nothing; a call without one ([None]) waits
    until the terminal delivers something.  On a terminal that stays
    silent such a call never returns of itself: the run goes on only
    when the user interrupts it, which the interpreter raises from the
    call as [KeyboardInterrupt]. *)
Definition select (fd : Z) (timeout : option Q) : sys bool :=
  fun w =>
    let w := log (Select fd timeout) w in
    match timeout_check timeout with
    | Some e => (Exc e, w)
    | None =>
        if is_open fd w then
          if nonempty (pending w) then (Val true, w)
          else
            match timeout with
            | Some _ =>
                match arrivals w with
                | [] => (Val false, w)
                | a :: rest =>
                    (Val (nonempty a),
                     World (ttys w) (attr w) (winsize w) (accepts w) rest a
                           (sent w) (trace w))
                end
            | None =>
                match next_input (arrivals w) with
                | Some (a, rest) =>
                    (Val true,
                     World (ttys w) (attr w) (winsize w) (accepts w) rest a
                           (sent w) (trace w))
                | None =>
                    (Exc KeyboardInterrupt,
                     World (ttys w) (attr w) (winsize w) (accepts w) []
                           (pending w) (sent w) (trace w))
                end
            end
        else (Exc OSError, w)
    end.

(** [os.read(fd, amount)] on a readable descriptor. *)
Definition os_read (fd : Z) (amount : nat) : sys bytes :=
  fun w =>
    let w := log (Read fd amount) w in
    if is_open fd w then
      (Val (take amount (pending w)),
       World (ttys w) (attr w) (winsize w) (accepts w) (arrivals w)
             (drop amount (pending w)) (sent w) (trace w))
    else (Exc OSError, w).

(** [os.close(fd)] *)
Definition os_close (fd : Z) : sys unit :=
  fun w =>
    let w := log (Close fd) w in
    if is_open fd w then
      (Val tt, World (ttys w ∖ {[fd]}) (attr w) (winsize w) (accepts w)
                     (arrivals w) (pending w) (sent w) (trace w))
    else (Exc OSError, w).

End Posix.

(** ** The class [TerminalContext] *)

Module Termlib.
Import Py Posix.

(** The instance attributes set by [__init__]. *)
Record TerminalContext := Handle {
  close_fd : bool;
  fd : Z;
  is_cbreak : bool;
  _initial_attr : termios
}.

(** A method runs on the object [self] and on the operating system;
    both are mutable, and an exception leaves their changes in place. *)
Record state := State {
  self : TerminalContext;
  os : world
}.

Definition M (A : Type) := state -> res A * state.

Definition ret {A} (a : A) : M A := fun s => (Val a, s).

Definition bind {A B} (m : M A) (k : A -> M B) : M B :=
  fun s =>
    match m s with
    | (Val a, s1) => k a s1
    | (Exc e, s1) => (Exc e, s1)
    end.

Notation "'let*' x ':=' m 'in' k" := (bind m (fun x => k))
  (at level 10, x pattern, m at level 100, k at level 200).

(** The value of a pure expression, or the exception it raises. *)
Definition eval {A} (r : res A) : M A := fun s => (r, s).

(** A call into the operating system. *)
Definition lift {A} (c : sys A) : M A :=
  fun s => let '(r, w) := c (os s) in (r, State (self s) w).

Definition get {A} (f : TerminalContext -> A) : M A := fun s => (Val (f (self s)), s).

(** [self.is_cbreak = v] *)
Definition set_is_cbreak (v : bool) : M unit :=
  fun s =>
    let h := self s in
    (Val tt, State (Handle (close_fd h) (fd h) v (_initial_attr h)) (os s)).

(** [try: body finally: fin]: [fin] runs on every exit of [body]; an
    exception of [fin] replaces the outcome of [body]. *)
Definition try_finally {A} (body : M A) (fin : M unit) : M A :=
  fun s =>
    let '(r, s1) := body s in
    match fin s1 with
    | (Val _, s2) => (r, s2)
    | (Exc e, s2) => (Exc e, s2)
    end.

(** [try: body except: handler], the bare [except] taking every
    exception. *)
Definition try_except {A} (body handler : M A) : M A :=
  fun s =>
    match body s with
    | (Val a, s1) => (Val a, s1)
    | (Exc _, s1) => handler s1
    end.

(** [TerminalContext(fd, close_fd)]: the construction of the object. *)
Definition __init__ (n : Z) (cfd : bool) : sys TerminalContext :=
  fun w =>
    match isatty n w with
    | (Val true, w1) =>
        match tcgetattr n w1 with
        | (Val a, w2) => (Val (Handle cfd n false a), w2)
        | (Exc e, w2) => (Exc e, w2)
        end
    | (Val false, w1) => (Exc TypeError, w1)
    | (Exc e, w1) => (Exc e, w1)
    end.

(** The property [termios_attributes]. *)
Definition termios_attributes : M termios :=
  let* n := get fd in lift (tcgetattr n).

Definition close : M unit :=
  let* n := get fd in
  let* a := get _initial_attr in
  let* _ := lift (tcsetattr n TCSADRAIN a) in
  let* c := get close_fd in
  if c then
    let* n := get fd in lift (os_close n)
  else ret tt.

(** [with self.cbreak_mode(): body] *)
Definition cbreak_mode {A} (body : M A) : M A :=
  let* c := get is_cbreak in
  if c then body
  else
    let* tattr := termios_attributes in
    try_finally
      (let* n := get fd in
       let* _ := lift (setcbreak n TCSADRAIN) in
       let* _ := set_is_cbreak true in
       body)
      (let* n := get fd in
       let* _ := lift (tcsetattr n TCSADRAIN tattr) in
       set_is_cbreak false).

(** [with self.custom_state(undo): body] *)
Definition custom_state {A} (undo : option (M unit)) (body : M A) : M A :=
  try_finally body
    (match undo with
     | Some f => f
     | None => ret tt
     end).

(** The default [timeout=0.05] of [query]. *)
Definition default_timeout : option Q := Some (5 # 100)%Q.

Definition query (s : str_or_bytes) (timeout : option Q) : M bytes :=
  cbreak_mode
    (let* n := get fd in
     let* data := eval (as_bytes s) in
     let* _ := lift (os_write n data) in
     let* n := get fd in
     let* can_read := lift (select n timeout) in
     if can_read then
       let* n := get fd in lift (os_read n 1024)
     else ret []).

(** [[int(v) for v in report[4:-1].split(b';')]] unpacked into two
    names. *)
Definition two_ints (report : bytes) : res (Z * Z) :=
  res_bind
    (comprehension (int 10) (split ";" (slice (Some 4) (Some (-1)) report)))
    unpack2.

Definition get_size : M (Z * Z * Z * Z) :=
  let '(cols, rows, xpixel, ypixel) := (0, 0, 0, 0) in
  let* (rows, cols, xpixel, ypixel) :=
    try_except
      (let* n := get fd in
       let* packed := lift (ioctl_TIOCGWINSZ n (pack_HHHH (0, 0, 0, 0))) in
       eval (unpack_HHHH packed))
      (ret (rows, cols, xpixel, ypixel)) in
  let* (rows, cols) :=
    if (rows =? 0) || (cols =? 0) then
      let* report := query (Str (27%N :: u "[18t")) default_timeout in
      if startswith (ESC :: b "[8;") report && endswith (b "t") report then
        try_except (eval (two_ints report)) (ret (rows, cols))
      else ret (rows, cols)
    else ret (rows, cols) in
  let* (ypixel, xpixel) :=
    if (xpixel =? 0) || (ypixel =? 0) then
      let* report := query (Str (27%N :: u "[14t")) default_timeout in
      if startswith (ESC :: b "[4;") report && endswith (b "t") report then
        try_except (eval (two_ints report)) (ret (ypixel, xpixel))
      else ret (ypixel, xpixel)
    else ret (ypixel, xpixel) in
  ret (cols, rows, xpixel, ypixel).

(** The loop of [write]: [sent = os.write(fd, data)], then as long as
    [sent] is not zero the rest [data[sent:]] is written.  Every round
    but the last shortens [data], so [length data + 1] rounds are
    enough (lemma [write_all_fuel]). *)
Fixpoint write_all (fuel : nat) (data : bytes) : M unit :=
  match fuel with
  | O => ret tt
  | S fuel' =>
      let* n := get fd in
      let* sent := lift (os_write n data) in
      if (sent =? 0)%nat then ret tt
      else write_all fuel' (drop sent data)
  end.

Definition write (s : str_or_bytes) : M unit :=
  let* data := eval (as_bytes s) in
  write_all (S (length data)) data.

Definition read (amount : nat) (timeout : option Q) : M bytes :=
  cbreak_mode
    (let* n := get fd in
     let* can_read := lift (select n timeout) in
     if can_read then
       let* n := get fd in lift (os_read n amount)
     else ret []).

(** [hex(int(v, 16) >> 8)[2:].zfill(2)] *)
Definition channel (v : bytes) : res str :=
  res_bind (int 16 v) (fun n =>
  Val (zfill 2 (slice (Some 2) None (hex (Z.shiftr n 8))))).

(** Lines 138 to 144: the reply of the terminal turned into a colour. *)
Definition color_of_report (slot : str) (report : bytes) : res (option str) :=
  if startswith [ESC; "]"%byte] report
     && (endswith [ESC; BSL] report || endswith [BEL] report)
  then
    let offset :=
      if str_eqb slot (u "fg") || str_eqb slot (u "bg") then 2
      else Z.of_nat (length (u "4;" ++ slot)) in
    let spec := rstrip [BEL] (rstrip [ESC; BSL] (slice (Some (3 + offset)) None report)) in
    if startswith (b "rgb:") spec then
      res_bind
        (res_bind (comprehension channel (split "/" (slice (Some 4) None spec)))
                  unpack3)
        (fun '(r, g, b) => Val (Some (u "#" ++ r ++ g ++ b)))
    else Val None
  else Val None.

Definition query_color (slot : str) : M (option str) :=
  let value :=
    if str_eqb slot (u "fg") then u "10"
    else if str_eqb slot (u "bg") then u "11"
    else u "4;" ++ slot in
  let* report :=
    query (Str (27%N :: u "]" ++ value ++ u ";?" ++ [27%N; 92%N])) default_timeout in
  eval (color_of_report slot report).

(** *** Callers

    A caller of the class: the public methods in sequence and in
    scopes, exceptions raised and caught, and attribute changes made
    on the descriptor without going through the object. *)
Inductive client :=
| Skip
| Seq (c1 c2 : client)
| Raise (e : exn)
| TryExcept (c handler : client)
| Stty (a : termios)
| CallQuery (s : str_or_bytes) (timeout : option Q)
| CallWrite (s : str_or_bytes)
| CallRead (amount : nat) (timeout : option Q)
| CallGetSize
| CallQueryColor (slot : str)
| WithCbreak (c : client)
| WithCustomState (undo c : client).

Definition void {A} (m : M A) : M unit := let* _ := m in ret tt.

Fixpoint run (c : client) : M unit :=
  match c with
  | Skip => ret tt
  | Seq c1 c2 => let* _ := run c1 in run c2
  | Raise e => eval (Exc e)
  | TryExcept c1 handler => try_except (run c1) (run handler)
  | Stty a => let* n := get fd in lift (tcsetattr n TCSANOW a)
  | CallQuery s timeout => void (query s timeout)
  | CallWrite s => write s
  | CallRead amount timeout => void (read amount timeout)
  | CallGetSize => void get_size
  | CallQueryColor slot => void (query_color slot)
  | WithCbreak c1 => cbreak_mode (run c1)
  | WithCustomState undo c1 => custom_state (Some (run undo)) (run c1)
  end.

(** *** What the scopes and the exchange amount to

    Closed forms of the state changes, used to state the properties. *)

(** The state in which the body of an activating cbreak scope starts. *)
Definition entered (s : state) : state :=
  let h := self s in
  let w := os s in
  State (Handle (close_fd h) (fd h) true (_initial_attr h))
        (World (ttys w) (cbreak_attr (attr w)) (winsize w) (accepts w)
               (arrivals w) (pending w) (sent w)
               (trace w ++ [TcGetAttr (fd h); TcGetAttr (fd h);
                            TcSetAttr (fd h) TCSADRAIN (cbreak_attr (attr w))])).

(** The state an activating cbreak scope leaves, from the state [s1]
    its body ended in and the snapshot [tattr] of its entry. *)
Definition restored (tattr : termios) (s1 : state) : state :=
  let h := self s1 in
  let w := os s1 in
  State (Handle (close_fd h) (fd h) false (_initial_attr h))
        (World (ttys w) tattr (winsize w) (accepts w) (arrivals w)
               (pending w) (sent w)
               (trace w ++ [TcSetAttr (fd h) TCSADRAIN tattr])).

(** The input [select] finds: what is queued, else what arrives next. *)
Definition incoming (w : world) : bytes :=
  if nonempty (pending w) then pending w else hd [] (arrivals w).

(** A wait that ends of itself: the timeout passes the check of
    [select], and where there is none, input is there to end it. *)
Definition wait_ends (timeout : option Q) (w : world) : bool :=
  match timeout_check timeout with
  | Some _ => false
  | None =>
      match timeout with
      | Some _ => true
      | None => nonempty (incoming w)
      end
  end.

(** The number of octets the next [write] of [data] takes. *)
Definition accepted (w : world) (data : bytes) : nat :=
  match accepts w with
  | k :: _ => Nat.min k (length data)
  | [] => length data
  end.

(** The calls of one [query], by the cbreak flag at its start. *)
Definition query_calls (flag : bool) (n : Z) (a : termios) (data : bytes)
    (timeout : option Q) (ready : bool) : list call :=
  let io := Write n data :: Select n timeout
            :: (if ready then [Read n 1024] else []) in
  if flag then io
  else TcGetAttr n :: TcGetAttr n :: TcSetAttr n TCSADRAIN (cbreak_attr a)
       :: io ++ [TcSetAttr n TCSADRAIN a].

(** The operating system after one [query]. *)
Definition after_query (flag : bool) (n : Z) (data : bytes)
    (timeout : option Q) (w : world) : world :=
  World (ttys w) (attr w) (winsize w) (tail (accepts w))
        (if nonempty (pending w) then arrivals w else tail (arrivals w))
        (drop 1024 (incoming w))
        (sent w ++ take (accepted w data) data)
        (trace w ++ query_calls flag n (attr w) data timeout (nonempty (incoming w))).

Definition is_write (c : call) : bool :=
  match c with Write _ _ => true | _ => false end.


(** Two lowercase hexadecimal digits for one octet. *)
Definition hexdigit (k : N) : byte :=
  octet (if (k <? 10)%N then 48 + k else 87 + k)%N.

Definition hex2 (c : byte) : bytes :=
  [hexdigit (Byte.to_N c / 16); hexdigit (Byte.to_N c mod 16)].



(** What the TIOCGWINSZ request leaves in (rows, cols, xpixel,
    ypixel) after the first [try] of [get_size]: the unpacked window
    size, or the four zeros when the request fails. *)
Definition ioctl_yields (w : world) : Z * Z * Z * Z :=
  match winsize w with
  | Some ws =>
      match unpack_HHHH (pack_HHHH ws) with
      | Val v => v
      | Exc _ => (0, 0, 0, 0)
      end
  | None => (0, 0, 0, 0)
  end.

(** One fallback of [get_size]: the pair parsed from a report of the
    right shape, else the pair as it was. *)
Definition fallback (prefix report : bytes) (old : Z * Z) : Z * Z :=
  if startswith prefix report && endswith (b "t") report then
    match two_ints report with
    | Val p => p
    | Exc _ => old
    end
  else old.

Definition csi18 : str := 27%N :: u "[18t".
Definition csi14 : str := 27%N :: u "[14t".
Definition csi18_bytes : bytes := ESC :: b "[18t".
Definition csi14_bytes : bytes := ESC :: b "[14t".

(** [get_size] on an open terminal, as a function of the operating
    system alone: the result and the system it leaves. *)
Definition get_size_model (flag : bool) (n : Z) (w : world)
  : (Z * Z * Z * Z) * world :=
  let '(rows, cols, xpixel, ypixel) := ioctl_yields w in
  let w1 := log (IoctlWinsz n) w in
  let c1 := (rows =? 0) || (cols =? 0) in
  let rc :=
    if c1 then fallback (ESC :: b "[8;") (take 1024 (incoming w1)) (rows, cols)
    else (rows, cols) in
  let w2 :=
    if c1 then after_query flag n csi18_bytes default_timeout w1 else w1 in
  let c2 := (xpixel =? 0) || (ypixel =? 0) in
  let yx :=
    if c2 then fallback (ESC :: b "[4;") (take 1024 (incoming w2)) (ypixel, xpixel)
    else (ypixel, xpixel) in
  let w3 :=
    if c2 then after_query flag n csi14_bytes default_timeout w2 else w2 in
  ((snd rc, fst rc, snd yx, fst yx), w3).

(** A computation that leaves the descriptor, the ownership flag and
    the initial attribute set of the object alone, and closes no
    descriptor. *)
Definition keeps {A} (m : M A) : Prop :=
  forall s,
    fd (self (snd (m s))) = fd (self s)
    /\ close_fd (self (snd (m s))) = close_fd (self s)
    /\ _initial_attr (self (snd (m s))) = _initial_attr (self s)
    /\ ttys (os (snd (m s))) = ttys (os s).

Definition sys_keeps {A} (c : sys A) : Prop :=
  forall w, ttys (snd (c w)) = ttys w.


(** The two digits as text. *)
Definition hexstr (c : byte) : str := map Byte.to_N (hex2 c).


(** A hexadecimal digit is no separator and no terminator. *)
Definition plain (x : byte) : bool :=
  negb (Byte.eqb x "/") && negb (mem x [ESC; BSL]) && negb (mem x [BEL]).


(** *** Sample terminals *)

Definition sane : termios :=
  Termios 0x4500 0x5 0xbf 0x8a3b 15 15
          [3; 28; 127; 21; 4; 0; 1; 0; 17; 19; 26; 0; 18; 15; 23; 22].

(** A terminal open on descriptor 0. *)
Definition tty_world (ws : option (Z * Z * Z * Z)) (acc : list nat)
    (arr : list bytes) : world :=
  World {[0]} sane ws acc arr [] [] [].

(** A handle on descriptor 0 of [w], outside any cbreak scope. *)
Definition fresh (w : world) : state :=
  State (Handle false 0 false (attr w)) w.



(** A text outside ASCII, one code point of two, of three and of four
    octets, and its UTF-8 encoding. *)
Definition accents : str := [0xE9%N; 0x20AC%N; 0x1F600%N].
Definition accents_bytes : bytes :=
  [xc3; xa9; xe2; x82; xac; xf0; x9f; x98; x80].

(** A terminal whose first [write] takes two octets only. *)
Definition short_write_state : state :=
  fresh (tty_world None [2%nat] []).


(** A terminal whose colour reply has a channel that is no number. *)
Definition bad_channel_state : state :=
  fresh (tty_world None [] [ESC :: b "]10;rgb:zz/00/00" ++ [ESC; BSL]]).

(** A scope body that writes one octet and then raises. *)
Definition failing_body : M unit :=
  let* _ := lift (os_write 0 (b "x")) in eval (Exc (UserError 1)).

(** A handle on descriptor 0 of [w] inside a cbreak scope. *)
Definition active (w : world) : state :=
  State (Handle false 0 true (attr w)) w.

(** Raw-like attributes a caller may set behind the object's back. *)
Definition noecho : termios :=
  Termios 0x4500 0x5 0xbf 0x8a33 15 15
          [3; 28; 127; 21; 4; 0; 1; 0; 17; 19; 26; 0; 18; 15; 23; 22].

(** A caller that changes the attributes, then queries the terminal
    inside a cbreak scope of its own. *)
Definition stty_then_query : client :=
  Seq (Stty noecho) (WithCbreak (CallQuery (Str csi18) default_timeout)).

(** *** Scoped acquisition

    [from_cterm] and the two module-level context managers.  A context
    manager constructs its object, hands it to the body of the [with]
    statement and closes it on every exit of that body. *)

(** [try: yield t finally: t.close()] *)
Definition with_handle {A} (t : TerminalContext) (body : M A) : sys A :=
  fun w =>
    let '(r, s) := try_finally body close (State t w) in (r, os s).

(** [with terminal_context(fd) as t: body] *)
Definition terminal_context {A} (n : Z) (body : M A) : sys A :=
  fun w =>
    match __init__ n false w with
    | (Val t, w1) => with_handle t body w1
    | (Exc e, w1) => (Exc e, w1)
    end.

Section ControllingTerminal.

(** The descriptor the kernel hands out for a newly opened file,
    given those that are open. *)
Variable alloc : gset Z -> Z.

(** [os.open(os.ctermid(), os.O_RDWR)]: one more descriptor on the
    terminal.  The call is on a path, not on a descriptor, and is not
    part of the trace. *)
Definition os_open_ctermid : sys Z :=
  fun w =>
    let n := alloc (ttys w) in
    (Val n, World (ttys w ∪ {[n]}) (attr w) (winsize w) (accepts w)
                  (arrivals w) (pending w) (sent w) (trace w)).

(** [TerminalContext.from_cterm()] *)
Definition from_cterm : sys TerminalContext :=
  fun w =>
    match os_open_ctermid w with
    | (Val n, w1) => __init__ n true w1
    | (Exc e, w1) => (Exc e, w1)
    end.

(** [with cterminal_context() as t: body] *)
Definition cterminal_context {A} (body : M A) : sys A :=
  fun w =>
    match from_cterm w with
    | (Val t, w1) => with_handle t body w1
    | (Exc e, w1) => (Exc e, w1)
    end.

End ControllingTerminal.

(** *** More closed forms *)




Definition is_close (c : call) : bool :=
  match c with Close _ => true | _ => false end.

(** A device that takes at least one octet on every [write]. *)
Definition willing (w : world) : bool :=
  forallb (fun k => 1 <=? k)%nat (accepts w).

(** The request of [query_color] for a slot whose text encodes to [e]. *)
Definition osc_request (slot : str) (e : bytes) : bytes :=
  ESC :: b "]"
      ++ (if str_eqb slot (u "fg") then b "10"
          else if str_eqb slot (u "bg") then b "11"
          else b "4;" ++ e)
      ++ b ";?" ++ [ESC; BSL].

(** The number of characters [query_color] takes the code of a slot to
    have: [offset] of line 139. *)
Definition code_length (slot : str) : nat :=
  if str_eqb slot (u "fg") || str_eqb slot (u "bg") then 2
  else length (u "4;" ++ slot).

(** A colour reply: [ESC ]], a code part, [rgb:] and three channels. *)
Definition osc_reply (code c1 c2 c3 st : bytes) : bytes :=
  ESC :: b "]" ++ code ++ b "rgb:" ++ c1 ++ b "/" ++ c2 ++ b "/" ++ c3 ++ st.

(** The octets that can occur in a number [int] accepts. *)
Definition int_char (c : byte) : bool :=
  is_space c || Byte.eqb c x2b || Byte.eqb c x2d || is_underscore c
  || match digit_value c with Some _ => true | None => false end.

(** The high octet of a channel value. *)
Definition high_octet (n : Z) : byte := octet (Z.to_N (n / 256)).

(** *** More sample terminals *)


(** A terminal that takes two octets, then one at a time. *)
Definition slow_state : state :=
  fresh (tty_world None [2%nat; 1%nat; 1%nat; 1%nat] []).

(** A terminal that takes nothing. *)
Definition stalled_state : state :=
  fresh (tty_world None [0%nat] []).

(** A handle that owns descriptor 0. *)
Definition owner (w : world) : state :=
  State (Handle true 0 false (attr w)) w.

(** The show-cursor sequence, as an undo callback would write it. *)
Definition show_cursor : bytes := ESC :: b "[?25h".

End Termlib.

(** ** Properties *)

Import Py Posix Termlib.

Ltac fields :=
  cbn [self os ttys attr winsize accepts arrivals pending sent trace
       close_fd fd is_cbreak _initial_attr fst snd] in *.

Ltac traces := rewrite <- ?app_assoc; cbn [app]; try reflexivity.

(** *** The built-ins on small inputs *)

Example int_decimal : int 10 (b "120") = Val 120.
Proof. reflexivity. Qed.

Example int_spaces_sign_underscore : int 10 (b " -12_3 ") = Val (-123).
Proof. reflexivity. Qed.

Example int_hex_prefix : int 16 (b "0x_ff") = Val 255.
Proof. reflexivity. Qed.

Example int_rejects :
  map (int 10) [b ""; b "+"; b "1__2"; b "12_"; b "_1"; b "12a"; b "1 2"]
  = repeat (Exc ValueError) 7.
Proof. reflexivity. Qed.

Example int_hex_rejects : map (int 16) [b "zz"; b "0x"; b "g"] = repeat (Exc ValueError) 3.
Proof. reflexivity. Qed.

Example split_fields : split ";" (b "40;120") = [b "40"; b "120"].
Proof. reflexivity. Qed.

Example split_empty_pieces : split ";" (b ";a;") = [[]; b "a"; []].
Proof. reflexivity. Qed.

Example slice_inner : slice (Some 4) (Some (-1)) (b "abcd40;120t") = b "40;120".
Proof. reflexivity. Qed.

Example slice_short : slice (Some 4) (Some (-1)) (b "abt") = [].
Proof. reflexivity. Qed.

Example rstrip_set : rstrip [ESC; BSL] (b "ab" ++ [ESC; BSL; BSL]) = b "ab".
Proof. reflexivity. Qed.

Example hex_values : (hex 50, hex 0, hex (-1)) = (u "0x32", u "0x0", u "-0x1").
Proof. reflexivity. Qed.

Example zfill_pads : (zfill 2 (u "5"), zfill 2 (u "32"), zfill 3 (u "-5")) = (u "05", u "32", u "-05").
Proof. reflexivity. Qed.

Example encode_utf8_lengths :
  encode_utf8 [0x41; 0xe9; 0x20ac; 0x1f600]%N
  = Val [x41; xc3; xa9; xe2; x82; xac; xf0; x9f; x98; x80].
Proof. reflexivity. Qed.

Example encode_utf8_surrogate : encode_utf8 [0xd800]%N = Exc UnicodeEncodeError.
Proof. reflexivity. Qed.

Example cbreak_attr_sane :
  c_lflag (cbreak_attr sane) = 0x8a31 /\ c_cc (cbreak_attr sane) = c_cc sane.
Proof. split; reflexivity. Qed.

Example channel_high_octet : channel (b "96ff") = Val (u "96").
Proof. reflexivity. Qed.

(** *** System calls on an open descriptor *)

Lemma is_open_log (n : Z) (c : call) (w : world) :
  is_open n (log c w) = is_open n w.
Proof. reflexivity. Qed.

Lemma tcgetattr_open (n : Z) (w : world) :
  is_open n w = true ->
  tcgetattr n w = (Val (attr w), log (TcGetAttr n) w).
Proof. intros H. unfold tcgetattr. rewrite is_open_log, H. reflexivity. Qed.

Lemma tcsetattr_open (n : Z) (when : optional_action) (a : termios) (w : world) :
  is_open n w = true ->
  tcsetattr n when a w =
    (Val tt, World (ttys w) a (winsize w) (accepts w) (arrivals w)
                   (pending w) (sent w) (trace w ++ [TcSetAttr n when a])).
Proof. intros H. unfold tcsetattr. rewrite is_open_log, H. reflexivity. Qed.

Lemma setcbreak_open (n : Z) (when : optional_action) (w : world) :
  is_open n w = true ->
  setcbreak n when w =
    (Val tt, World (ttys w) (cbreak_attr (attr w)) (winsize w) (accepts w)
                   (arrivals w) (pending w) (sent w)
                   (trace w ++ [TcGetAttr n; TcSetAttr n when (cbreak_attr (attr w))])).
Proof.
  intros H. unfold setcbreak. rewrite (tcgetattr_open _ _ H).
  rewrite tcsetattr_open by (rewrite is_open_log; exact H).
  cbn. rewrite <- app_assoc. reflexivity.
Qed.

(** *** The cbreak scope *)

Lemma cbreak_mode_active {A} (body : M A) (s : state) :
  is_cbreak (self s) = true -> cbreak_mode body s = body s.
Proof.
  intros H. unfold cbreak_mode, bind, get. rewrite H. reflexivity.
Qed.

Lemma cbreak_mode_inactive {A} (body : M A) (s : state) :
  is_cbreak (self s) = false ->
  is_open (fd (self s)) (os s) = true ->
  is_open (fd (self (snd (body (entered s))))) (os (snd (body (entered s)))) = true ->
  cbreak_mode body s =
    (fst (body (entered s)), restored (attr (os s)) (snd (body (entered s)))).
Proof.
  intros Hflag Hopen Hexit.
  unfold cbreak_mode, bind, get, termios_attributes, lift, try_finally, bind, get.
  rewrite Hflag.
  rewrite (tcgetattr_open _ _ Hopen). cbn [self os fst snd].
  rewrite setcbreak_open by (rewrite is_open_log; exact Hopen).
  cbn [log self os ttys attr winsize accepts arrivals pending sent trace
       set_is_cbreak close_fd fd _initial_attr].
  rewrite <- app_assoc. cbn [app].
  change (State _ _) with (entered s) at 1.
  destruct (body (entered s)) as [r s1] eqn:Hbody. cbn [fst snd] in *.
  rewrite (tcsetattr_open _ _ _ _ Hexit). reflexivity.
Qed.

(** When the body has closed the descriptor, the restoring call is
    still made; it raises, and the flag stays as the body left it. *)
Lemma cbreak_mode_exit_closed {A} (body : M A) (s : state) :
  is_cbreak (self s) = false ->
  is_open (fd (self s)) (os s) = true ->
  is_open (fd (self (snd (body (entered s))))) (os (snd (body (entered s)))) = false ->
  cbreak_mode body s =
    (Exc TermiosError,
     State (self (snd (body (entered s))))
           (log (TcSetAttr (fd (self (snd (body (entered s))))) TCSADRAIN
                           (attr (os s)))
                (os (snd (body (entered s)))))).
Proof.
  intros Hflag Hopen Hexit.
  unfold cbreak_mode, bind, get, termios_attributes, lift, try_finally, bind, get.
  rewrite Hflag.
  rewrite (tcgetattr_open _ _ Hopen). cbn [self os fst snd].
  rewrite setcbreak_open by (rewrite is_open_log; exact Hopen).
  cbn [log self os ttys attr winsize accepts arrivals pending sent trace
       set_is_cbreak close_fd fd _initial_attr].
  rewrite <- app_assoc. cbn [app].
  change (State _ _) with (entered s) at 1.
  destruct (body (entered s)) as [r s1] eqn:Hbody. cbn [fst snd] in *.
  unfold tcsetattr. rewrite is_open_log, Hexit. reflexivity.
Qed.

(** The scope looks at its body only in states where the flag is set. *)
Lemma cbreak_mode_ext {A} (body1 body2 : M A) (s : state) :
  (forall s0, is_cbreak (self s0) = true -> body1 s0 = body2 s0) ->
  cbreak_mode body1 s = cbreak_mode body2 s.
Proof.
  intros H. destruct (is_cbreak (self s)) eqn:Hflag.
  - rewrite !cbreak_mode_active by exact Hflag. apply H, Hflag.
  - unfold cbreak_mode, termios_attributes.
    unfold bind, get, lift, try_finally, set_is_cbreak.
    rewrite Hflag.
    destruct (tcgetattr (fd (self s)) (os s)) as [[tattr|e] w1]; [|reflexivity].
    fields.
    destruct (setcbreak (fd (self s)) TCSADRAIN w1) as [[[]|e] w2]; fields;
      [|reflexivity].
    rewrite H by reflexivity. reflexivity.
Qed.

(** A scope entered inside a scope adds nothing to it. *)
Lemma cbreak_mode_nested {A} (body : M A) (s : state) :
  cbreak_mode (cbreak_mode body) s = cbreak_mode body s.
Proof.
  apply cbreak_mode_ext. intros s0 H0. apply cbreak_mode_active, H0.
Qed.

Lemma os_write_open (n : Z) (data : bytes) (w : world) :
  is_open n w = true ->
  os_write n data w =
    (Val (accepted w data),
     World (ttys w) (attr w) (winsize w) (tail (accepts w)) (arrivals w)
           (pending w) (sent w ++ take (accepted w data) data)
           (trace w ++ [Write n data])).
Proof. intros H. unfold os_write. rewrite is_open_log, H. reflexivity. Qed.

(** *** The timeout of a wait *)

Lemma round_away_nonneg (q : Q) : (0 <= q)%Q -> 0 <= round_away q.
Proof.
  intros H. unfold round_away.
  assert (Hn : 0 <= Qnum q).
  { unfold Qle in H. cbn in H. lia. }
  rewrite (proj2 (Z.ltb_ge _ _) Hn).
  change 0 with (Qceiling (inject_Z 0)). apply Qceiling_resp_le, H.
Qed.

Lemma round_away_le (q : Q) (n : Z) :
  (0 <= q)%Q -> (q <= inject_Z n)%Q -> round_away q <= n.
Proof.
  intros H0 H. unfold round_away.
  assert (Hn : 0 <= Qnum q).
  { unfold Qle in H0. cbn in H0. lia. }
  rewrite (proj2 (Z.ltb_ge _ _) Hn).
  rewrite <- (Qceiling_Z n). apply Qceiling_resp_le, H.
Qed.

Lemma round_away_negative (q : Q) : (q < 0)%Q -> round_away q < 0.
Proof.
  intros H. unfold round_away.
  assert (Hn : Qnum q < 0).
  { unfold Qlt in H. cbn in H. lia. }
  rewrite (proj2 (Z.ltb_lt _ _) Hn).
  apply Z.lt_nge. intros Hge.
  apply (Qlt_not_le _ _ H).
  apply Qle_trans with (inject_Z (Qfloor q)); [|apply Qfloor_le].
  change 0%Q with (inject_Z 0). rewrite <- Zle_Qle. exact Hge.
Qed.

Lemma round_away_ge (q : Q) (n : Z) :
  (inject_Z n <= q)%Q -> n <= round_away q.
Proof.
  intros H. unfold round_away. destruct (Qnum q <? 0).
  - rewrite <- (Qfloor_Z n). apply Qfloor_resp_le, H.
  - rewrite <- (Qceiling_Z n). apply Qceiling_resp_le, H.
Qed.

(** [select] accepts a timeout from zero to 9223372036 seconds, some
    292 years, which is beyond what the clock holds by less than a
    second. *)
Lemma timeout_check_accepts (t : Q) :
  (0 <= t)%Q -> (t <= 9223372036)%Q -> timeout_check (Some t) = None.
Proof.
  intros H0 H1. unfold timeout_check, clock_ns. cbv zeta.
  assert (A : (0 <= t * 1000000000)%Q).
  { apply Qmult_le_0_compat; [exact H0|discriminate]. }
  assert (B : (t * 1000000000 <= inject_Z 9223372036000000000)%Q).
  { change (inject_Z 9223372036000000000) with (9223372036 * 1000000000)%Q.
    apply Qmult_le_compat_r; [exact H1|discriminate]. }
  pose proof (round_away_nonneg _ A). pose proof (round_away_le _ _ A B).
  rewrite (proj2 (Z.ltb_ge _ _)) by lia.
  rewrite (proj2 (Z.leb_gt _ _)) by lia.
  rewrite (proj2 (Z.ltb_ge _ _)) by lia. reflexivity.
Qed.

(** It refuses a negative one with [ValueError]. *)
Lemma timeout_check_negative (t : Q) :
  (t < 0)%Q -> (-9223372036 <= t)%Q -> timeout_check (Some t) = Some ValueError.
Proof.
  intros H0 H1. unfold timeout_check, clock_ns. cbv zeta.
  assert (A : (t * 1000000000 < 0)%Q).
  { destruct t as [n d]. unfold Qlt in *. cbn in *. lia. }
  assert (B : (inject_Z (-9223372036000000000) <= t * 1000000000)%Q).
  { change (inject_Z (-9223372036000000000)) with (-9223372036 * 1000000000)%Q.
    apply Qmult_le_compat_r; [exact H1|discriminate]. }
  pose proof (round_away_negative _ A). pose proof (round_away_ge _ _ B).
  rewrite (proj2 (Z.ltb_ge _ _)) by lia.
  rewrite (proj2 (Z.leb_gt _ _)) by lia.
  rewrite (proj2 (Z.ltb_lt _ _)) by lia. reflexivity.
Qed.

(** The timeout of a wait that ends of itself passes the check. *)
Lemma wait_ends_check (timeout : option Q) (w : world) :
  wait_ends timeout w = true -> timeout_check timeout = None.
Proof.
  unfold wait_ends. destruct (timeout_check timeout); [discriminate|reflexivity].
Qed.

Lemma wait_ends_default (w : world) : wait_ends default_timeout w = true.
Proof. reflexivity. Qed.



Lemma select_open (n : Z) (timeout : option Q) (w : world) :
  wait_ends timeout w = true ->
  is_open n w = true ->
  select n timeout w =
    (Val (nonempty (incoming w)),
     World (ttys w) (attr w) (winsize w) (accepts w)
           (if nonempty (pending w) then arrivals w else tail (arrivals w))
           (incoming w) (sent w) (trace w ++ [Select n timeout])).
Proof.
  intros Hw H. unfold select. rewrite (wait_ends_check _ _ Hw).
  rewrite is_open_log, H.
  unfold wait_ends in Hw. rewrite (wait_ends_check _ _ Hw) in Hw.
  unfold incoming in *.
  destruct w as [tt a ws acc arr pend snt tr]; cbn in *.
  destruct pend as [|c pend]; cbn in *; [|reflexivity].
  destruct timeout as [t|].
  - destruct arr as [|x arr]; reflexivity.
  - destruct arr as [|x arr]; cbn in *; [discriminate|].
    rewrite Hw. reflexivity.
Qed.


Lemma os_read_open (n : Z) (amount : nat) (w : world) :
  is_open n w = true ->
  os_read n amount w =
    (Val (take amount (pending w)),
     World (ttys w) (attr w) (winsize w) (accepts w) (arrivals w)
           (drop amount (pending w)) (sent w) (trace w ++ [Read n amount])).
Proof. intros H. unfold os_read. rewrite is_open_log, H. reflexivity. Qed.

(** *** One exchange with the terminal *)

(** The body of [query], in whatever state the scope starts it. *)
Lemma query_body_open (data : bytes) (timeout : option Q) (s : state) :
  wait_ends timeout (os s) = true ->
  is_open (fd (self s)) (os s) = true ->
  (let* n := get fd in
   let* d := eval (Val data) in
   let* _ := lift (os_write n d) in
   let* n := get fd in
   let* can_read := lift (select n timeout) in
   if can_read then let* n := get fd in lift (os_read n 1024) else ret []) s =
  (Val (take 1024 (incoming (os s))),
   State (self s) (after_query true (fd (self s)) data timeout (os s))).
Proof.
  intros Hw H. destruct s as [h w]. fields.
  unfold bind, get, eval, lift. fields.
  rewrite (os_write_open _ _ _ H). fields.
  rewrite select_open by first [exact H | exact Hw]. fields.
  unfold after_query, query_calls, incoming. fields.
  destruct (nonempty (pending w)) eqn:Hp.
  - rewrite Hp. rewrite os_read_open by exact H. fields. traces.
  - destruct (arrivals w) as [|x arr]; cbn [hd tail].
    + cbn. traces.
    + destruct x as [|c x].
      * cbn. traces.
      * cbn [nonempty]. rewrite os_read_open by exact H. fields. traces.
Qed.

Lemma query_open (req : str_or_bytes) (data : bytes) (timeout : option Q)
    (s : state) :
  as_bytes req = Val data ->
  wait_ends timeout (os s) = true ->
  is_open (fd (self s)) (os s) = true ->
  query req timeout s =
    (Val (take 1024 (incoming (os s))),
     State (self s)
           (after_query (is_cbreak (self s)) (fd (self s)) data timeout (os s))).
Proof.
  intros Hreq Hw Hopen. unfold query. rewrite Hreq.
  destruct (is_cbreak (self s)) eqn:Hflag.
  - rewrite cbreak_mode_active by exact Hflag.
    apply query_body_open; [exact Hw | exact Hopen].
  - assert (He : is_open (fd (self (entered s))) (os (entered s)) = true)
      by exact Hopen.
    assert (Hwe : wait_ends timeout (os (entered s)) = true) by exact Hw.
    rewrite cbreak_mode_inactive;
      rewrite ?query_body_open by first [exact He | exact Hwe];
      try assumption.
    fields. f_equal.
    destruct s as [[cfd n flag ia] w]. fields. subst flag.
    unfold restored, after_query, query_calls, entered, incoming, accepted.
    fields. traces.
Qed.

(** C1.  The cbreak scope is a state machine on the single flag
    [is_cbreak].  Entered with the flag set, the scope is its body and
    nothing else: no attribute is read and none is changed.  Entered
    with the flag clear on an open terminal, the scope takes the
    snapshot [attr (os s)], and however its body ends, with a value or
    with an exception ([fst out] is either), its last call is the
    [tcsetattr] that reapplies that snapshot; on the descriptor the
    body left open this puts the snapshot back in force, clears the
    flag and passes the outcome of the body on.  A scope nested in
    another therefore changes nothing: the two together are the outer
    one. *)
Theorem cbreak_mode_single_flag {A : Type} (body : M A) (s : state) :
  (is_cbreak (self s) = true -> cbreak_mode body s = body s)
  /\ (is_cbreak (self s) = false ->
      is_open (fd (self s)) (os s) = true ->
      let out := body (entered s) in
      let fin := cbreak_mode body s in
      trace (os (snd fin)) =
        trace (os (snd out))
        ++ [TcSetAttr (fd (self (snd out))) TCSADRAIN (attr (os s))]
      /\ (is_open (fd (self (snd out))) (os (snd out)) = true ->
          fst fin = fst out
          /\ snd fin = restored (attr (os s)) (snd out)
          /\ attr (os (snd fin)) = attr (os s)
          /\ is_cbreak (self (snd fin)) = false))
  /\ cbreak_mode (cbreak_mode body) s = cbreak_mode body s.
Proof.
  split; [|split].
  - apply cbreak_mode_active.
  - intros Hflag Hopen out fin. subst fin out. split.
    + destruct (is_open (fd (self (snd (body (entered s)))))
                        (os (snd (body (entered s))))) eqn:Hexit.
      * rewrite cbreak_mode_inactive by assumption. reflexivity.
      * rewrite cbreak_mode_exit_closed by assumption. reflexivity.
    + intros Hexit. rewrite cbreak_mode_inactive by assumption.
      repeat split.
  - apply cbreak_mode_nested.
Qed.





(** *** The window size *)

Lemma unpack_pack_HHHH (ws : Z * Z * Z * Z) :
  exists v, unpack_HHHH (pack_HHHH ws) = Val v.
Proof. destruct ws as [[[a b0] c] d]. eexists. reflexivity. Qed.

Lemma encode_csi18 : as_bytes (Str csi18) = Val csi18_bytes.
Proof. reflexivity. Qed.

Lemma encode_csi14 : as_bytes (Str csi14) = Val csi14_bytes.
Proof. reflexivity. Qed.

Lemma bind_val {A B} (m : M A) (k : A -> M B) (s s1 : state) (a : A) :
  m s = (Val a, s1) -> bind m k s = k a s1.
Proof. intros H. unfold bind. rewrite H. reflexivity. Qed.

Lemma bind_exc {A B} (m : M A) (k : A -> M B) (s s1 : state) (e : exn) :
  m s = (Exc e, s1) -> bind m k s = (Exc e, s1).
Proof. intros H. unfold bind. rewrite H. reflexivity. Qed.

(** The first [try] of [get_size]. *)
Lemma ioctl_step (s : state) :
  is_open (fd (self s)) (os s) = true ->
  try_except
    (let* n := get fd in
     let* packed := lift (ioctl_TIOCGWINSZ n (pack_HHHH (0, 0, 0, 0))) in
     eval (unpack_HHHH packed))
    (ret (0, 0, 0, 0)) s =
  (Val (ioctl_yields (os s)),
   State (self s) (log (IoctlWinsz (fd (self s))) (os s))).
Proof.
  intros Hopen. destruct s as [h w]. fields.
  unfold try_except, bind, get, lift, eval, ret, ioctl_TIOCGWINSZ, ioctl_yields.
  fields. rewrite is_open_log, Hopen. cbn [log winsize].
  destruct (winsize w) as [ws|]; [|reflexivity].
  destruct (unpack_pack_HHHH ws) as [v Hv]. rewrite Hv. reflexivity.
Qed.

(** Either fallback of [get_size]. *)
Lemma fallback_step (cond : bool) (req : str) (data prefix : bytes)
    (old : Z * Z) (s : state) :
  as_bytes (Str req) = Val data ->
  is_open (fd (self s)) (os s) = true ->
  (if cond then
     let* report := query (Str req) default_timeout in
     if startswith prefix report && endswith (b "t") report then
       try_except (eval (two_ints report)) (ret old)
     else ret old
   else ret old) s =
  (Val (if cond then fallback prefix (take 1024 (incoming (os s))) old else old),
   State (self s)
         (if cond
          then after_query (is_cbreak (self s)) (fd (self s)) data
                           default_timeout (os s)
          else os s)).
Proof.
  intros Hreq Hopen. destruct cond.
  - erewrite bind_val by (apply query_open; [eassumption|reflexivity|eassumption]).
    unfold fallback, try_except, eval, ret.
    destruct (startswith _ _ && endswith _ _); [|reflexivity].
    destruct (two_ints _); reflexivity.
  - destruct s. reflexivity.
Qed.

Lemma get_size_open (s : state) :
  is_open (fd (self s)) (os s) = true ->
  get_size s =
    (Val (fst (get_size_model (is_cbreak (self s)) (fd (self s)) (os s))),
     State (self s)
           (snd (get_size_model (is_cbreak (self s)) (fd (self s)) (os s)))).
Proof.
  intros Hopen. unfold get_size, get_size_model.
  erewrite bind_val by (apply ioctl_step; exact Hopen).
  destruct (ioctl_yields (os s)) as [[[rows cols] xpixel] ypixel].
  erewrite bind_val
    by (apply (fallback_step _ csi18 csi18_bytes); [reflexivity | exact Hopen]).
  fields.
  set (rc := if (rows =? 0) || (cols =? 0) then _ else _).
  set (w2 := if (rows =? 0) || (cols =? 0) then _ else _).
  assert (H2 : is_open (fd (self s)) w2 = true).
  { subst w2. destruct ((rows =? 0) || (cols =? 0)); exact Hopen. }
  destruct rc as [rows' cols'] eqn:Hrc.
  erewrite bind_val
    by (apply (fallback_step _ csi14 csi14_bytes); [reflexivity | exact H2]).
  fields.
  destruct (if (xpixel =? 0) || (ypixel =? 0) then _ else _) as [y' x'].
  reflexivity.
Qed.

(** *** Numbers without a sign *)










Lemma unpack_HHHH_nonneg (l : bytes) (r c x y : Z) :
  unpack_HHHH l = Val (r, c, x, y) -> 0 <= r /\ 0 <= c /\ 0 <= x /\ 0 <= y.
Proof.
  unfold unpack_HHHH, unpack_H.
  do 9 (destruct l as [|? l]; try discriminate).
  intros H. inversion H. lia.
Qed.

Lemma ioctl_yields_nonneg (w : world) (r c x y : Z) :
  ioctl_yields w = (r, c, x, y) -> 0 <= r /\ 0 <= c /\ 0 <= x /\ 0 <= y.
Proof.
  unfold ioctl_yields. destruct (winsize w) as [ws|].
  - destruct (unpack_HHHH (pack_HHHH ws)) as [[[[r0 c0] x0] y0]|] eqn:Hv.
    + intros H. inversion H. subst. eapply unpack_HHHH_nonneg, Hv.
    + intros H. inversion H. lia.
  - intros H. inversion H. lia.
Qed.




(** *** Writing *)

Lemma os_write_outcome (n : Z) (data : bytes) (w : world) :
  (exists w', os_write n data w = (Exc OSError, w')
              /\ trace w' = trace w ++ [Write n data])
  \/ (exists k w', os_write n data w = (Val k, w')
                   /\ (k <= length data)%nat
                   /\ trace w' = trace w ++ [Write n data]).
Proof.
  unfold os_write. rewrite is_open_log. destruct (is_open n w).
  - right. do 2 eexists. split; [reflexivity|]. split; [|reflexivity].
    cbn. destruct (accepts w); lia.
  - left. eexists. split; reflexivity.
Qed.

(** The loop of [write] never runs out of rounds: any two budgets above
    the length of the data give the same run. *)
Lemma write_all_fuel (data : bytes) (fuel1 fuel2 : nat) (s : state) :
  (length data < fuel1)%nat ->
  (length data < fuel2)%nat ->
  write_all fuel1 data s = write_all fuel2 data s.
Proof.
  remember (length data) as len eqn:Hlen.
  revert data Hlen fuel1 fuel2 s.
  induction len as [len IH] using lt_wf_ind.
  intros data -> [|f1] [|f2] s H1 H2; try lia.
  cbn [write_all]. unfold bind, get, lift. fields.
  destruct (os_write_outcome (fd (self s)) data (os s))
    as [(w' & E & _)|(k & w' & E & Hk & _)]; rewrite E; [reflexivity|].
  destruct k as [|k]; [reflexivity|]. cbn [Nat.eqb].
  apply (IH (length (drop (S k) data))); rewrite ?length_drop; lia.
Qed.

(** On a device that takes at least one octet each time, [write]
    transmits all the data. *)
Lemma write_all_sends (fuel : nat) :
  forall (data : bytes) (s : state),
    (length data < fuel)%nat ->
    is_open (fd (self s)) (os s) = true ->
    Forall (fun k => (1 <= k)%nat) (accepts (os s)) ->
    fst (write_all fuel data s) = Val tt
    /\ sent (os (snd (write_all fuel data s))) = sent (os s) ++ data.
Proof.
  induction fuel as [|fuel IH]; intros data s Hlen Hopen Hacc; [lia|].
  cbn [write_all]. unfold bind, get, lift. fields.
  rewrite (os_write_open _ _ _ Hopen).
  destruct (accepted (os s) data) as [|k] eqn:Hk.
  - cbn. assert (data = []) as ->; [|cbn; rewrite !app_nil_r; split; reflexivity].
    unfold accepted in Hk. destruct (accepts (os s)) as [|a acc].
    + destruct data; [reflexivity|discriminate].
    + inversion Hacc; subst. destruct data; [reflexivity|]. cbn in Hk. lia.
  - cbn [Nat.eqb].
    assert (Hle : (S k <= length data)%nat).
    { rewrite <- Hk. unfold accepted. destruct (accepts (os s)); lia. }
    match goal with
    | |- context [write_all fuel ?d ?s1] =>
        destruct (IH d s1) as [IH1 IH2]
    end.
    + rewrite length_drop. lia.
    + exact Hopen.
    + cbn. destruct (accepts (os s)); [constructor|].
      inversion Hacc; assumption.
    + split; [exact IH1|]. rewrite IH2. cbn.
      rewrite <- app_assoc, take_drop. reflexivity.
Qed.

Lemma write_first_call (data : bytes) (s : state) :
  exists rest,
    trace (os (snd (write (Bytes data) s))) =
      trace (os s) ++ Write (fd (self s)) data :: rest.
Proof.
  unfold write, as_bytes. rewrite (bind_val _ _ s s data) by reflexivity.
  cbn [write_all]. unfold bind at 1, get. fields.
  unfold bind at 1, lift. fields.
  destruct (os_write_outcome (fd (self s)) data (os s))
    as [(w' & E & Ht)|(k & w' & E & _ & Ht)]; rewrite E.
  - exists []. exact Ht.
  - destruct (k =? 0)%nat.
    + exists []. exact Ht.
    + assert (Hmono : forall fuel d s0, exists calls,
                trace (os (snd (write_all fuel d s0))) = trace (os s0) ++ calls).
      { clear. induction fuel as [|fuel IH]; intros d s0.
        - exists []. cbn. rewrite app_nil_r. reflexivity.
        - cbn [write_all]. unfold bind, get, lift. fields.
          destruct (os_write_outcome (fd (self s0)) d (os s0))
            as [(w' & E & Ht)|(k & w' & E & _ & Ht)]; rewrite E.
          + eexists. exact Ht.
          + destruct (k =? 0)%nat; [eexists; exact Ht|].
            destruct (IH (drop k d) (State (self s0) w')) as [calls Hc].
            rewrite Hc. cbn [os]. rewrite Ht, <- app_assoc. eexists. reflexivity. }
      destruct (Hmono (length data) (drop k data) (State (self s) w'))
        as [calls Hc].
      rewrite Hc. cbn [os]. rewrite Ht, <- app_assoc. eexists. reflexivity.
Qed.

(** What a wait leaves alone, however it ends. *)
Lemma select_frame (n : Z) (timeout : option Q) (w : world) :
  ttys (snd (select n timeout w)) = ttys w
  /\ attr (snd (select n timeout w)) = attr w
  /\ accepts (snd (select n timeout w)) = accepts w
  /\ sent (snd (select n timeout w)) = sent w
  /\ trace (snd (select n timeout w)) = trace w ++ [Select n timeout].
Proof.
  unfold select.
  destruct (timeout_check timeout); [repeat split|].
  destruct (is_open _ _); [|repeat split].
  destruct (nonempty _); [repeat split|].
  destruct timeout.
  - destruct (arrivals _); repeat split.
  - destruct (next_input _) as [[a rest]|]; repeat split.
Qed.

(** The body of [query] on an open terminal, whatever the timeout and
    however the wait ends: one write, of the whole request, of which
    the device takes what it takes. *)
Lemma query_body_writes_once (data : bytes) (timeout : option Q) (s : state) :
  is_open (fd (self s)) (os s) = true ->
  let out :=
    (let* n := get fd in
     let* d := eval (Val data) in
     let* _ := lift (os_write n d) in
     let* n := get fd in
     let* can_read := lift (select n timeout) in
     if can_read then let* n := get fd in lift (os_read n 1024) else ret []) s in
  self (snd out) = self s
  /\ ttys (os (snd out)) = ttys (os s)
  /\ sent (os (snd out)) = sent (os s) ++ take (accepted (os s) data) data
  /\ exists calls,
       trace (os (snd out)) = trace (os s) ++ Write (fd (self s)) data :: calls
       /\ List.filter is_write calls = [].
Proof.
  intros H. destruct s as [h w]. fields.
  unfold bind, get, eval, lift. fields.
  rewrite (os_write_open _ _ _ H). fields.
  match goal with
  | |- context [select ?n ?t ?w1] =>
      destruct (select_frame n t w1) as (F1 & _ & _ & F4 & F5);
      destruct (select n t w1) as [[[|]|e] w2]
  end; fields.
  - unfold os_read. rewrite is_open_log.
    destruct (is_open (fd h) w2); unfold log; fields;
      rewrite ?F1, ?F4, ?F5; fields;
      (repeat split; eexists; rewrite <- !app_assoc; split; reflexivity).
  - unfold ret. fields. rewrite ?F1, ?F4, ?F5.
    repeat split. eexists. rewrite <- !app_assoc. split; reflexivity.
  - rewrite ?F1, ?F4, ?F5.
    repeat split. eexists. rewrite <- !app_assoc. split; reflexivity.
Qed.

(** [query] calls [write] once, whatever the device took, whatever the
    timeout and however the wait ends. *)
Lemma query_writes_once (req : str_or_bytes) (data : bytes)
    (timeout : option Q) (s : state) :
  as_bytes req = Val data ->
  is_open (fd (self s)) (os s) = true ->
  exists calls,
    trace (os (snd (query req timeout s))) = trace (os s) ++ calls
    /\ List.filter is_write calls = [Write (fd (self s)) data]
    /\ sent (os (snd (query req timeout s))) =
         sent (os s) ++ take (accepted (os s) data) data.
Proof.
  intros Hreq Hopen. unfold query. rewrite Hreq.
  destruct (is_cbreak (self s)) eqn:Hflag.
  - rewrite cbreak_mode_active by exact Hflag.
    destruct (query_body_writes_once data timeout s Hopen)
      as (_ & _ & Hs & calls & Ht & Hf).
    exists (Write (fd (self s)) data :: calls).
    split; [exact Ht|]. split; [|exact Hs].
    cbn [List.filter is_write]. rewrite Hf. reflexivity.
  - assert (He : is_open (fd (self (entered s))) (os (entered s)) = true)
      by exact Hopen.
    destruct (query_body_writes_once data timeout (entered s) He)
      as (Hh & Hty & Hs & calls & Ht & Hf).
    rewrite cbreak_mode_inactive; try assumption.
    + unfold restored. fields. rewrite Ht, Hs.
      eexists. split; [|split].
      * unfold entered. fields. rewrite <- !app_assoc. reflexivity.
      * cbn [app List.filter is_write]. rewrite List.filter_app, Hf.
        unfold entered. reflexivity.
      * unfold entered, accepted. reflexivity.
    + rewrite Hh. unfold is_open in *. rewrite Hty. exact He.
Qed.

(** C4 fails on the code: [query] makes one [os.write] call and drops
    its result.  On a terminal whose first write takes two of the five
    octets of [ESC [ 18 t], the other three are never written; the
    method [write] on the same terminal transmits all five. *)
Theorem query_drops_rest_of_short_write :
  let out := query (Str csi18) default_timeout short_write_state in
  fst out = Val []
  /\ List.filter is_write (trace (os (snd out))) = [Write 0 csi18_bytes]
  /\ sent (os (snd out)) = [ESC; "["%byte]
  /\ sent (os (snd (write (Str csi18) short_write_state))) = csi18_bytes.
Proof. vm_compute. repeat split. Qed.

(** *** What the methods leave alone *)

Lemma keeps_ret {A} (a : A) : keeps (ret a).
Proof. intros s. auto. Qed.

Lemma keeps_eval {A} (r : res A) : keeps (eval r).
Proof. intros s. auto. Qed.

Lemma keeps_get {A} (f : TerminalContext -> A) : keeps (get f).
Proof. intros s. auto. Qed.

Lemma keeps_set_is_cbreak (v : bool) : keeps (set_is_cbreak v).
Proof. intros s. cbn. auto. Qed.

Lemma keeps_bind {A B} (m : M A) (k : A -> M B) :
  keeps m -> (forall a, keeps (k a)) -> keeps (bind m k).
Proof.
  intros Hm Hk s. unfold bind. specialize (Hm s).
  destruct (m s) as [[a|e] s1]; cbn in Hm; [|exact Hm].
  specialize (Hk a s1). destruct Hm as (<- & <- & <- & <-). exact Hk.
Qed.

Lemma keeps_lift {A} (c : sys A) : sys_keeps c -> keeps (lift c).
Proof.
  intros Hc s. unfold lift. specialize (Hc (os s)).
  destruct (c (os s)) as [r w]. cbn in *. auto.
Qed.

Lemma keeps_try_finally {A} (body : M A) (fin : M unit) :
  keeps body -> keeps fin -> keeps (try_finally body fin).
Proof.
  intros Hb Hf s. unfold try_finally. specialize (Hb s).
  destruct (body s) as [r s1]. cbn in Hb. specialize (Hf s1).
  destruct Hb as (<- & <- & <- & <-).
  destruct (fin s1) as [[[]|e] s2]; exact Hf.
Qed.

Lemma keeps_try_except {A} (body handler : M A) :
  keeps body -> keeps handler -> keeps (try_except body handler).
Proof.
  intros Hb Hh s. unfold try_except. specialize (Hb s).
  destruct (body s) as [[a|e] s1]; cbn in Hb; [exact Hb|].
  specialize (Hh s1). destruct Hb as (<- & <- & <- & <-). exact Hh.
Qed.

Lemma sys_keeps_tcgetattr (n : Z) : sys_keeps (tcgetattr n).
Proof. intros w. unfold tcgetattr. destruct (is_open _ _); reflexivity. Qed.

Lemma sys_keeps_tcsetattr (n : Z) (when : optional_action) (a : termios) :
  sys_keeps (tcsetattr n when a).
Proof. intros w. unfold tcsetattr. destruct (is_open _ _); reflexivity. Qed.

Lemma sys_keeps_setcbreak (n : Z) (when : optional_action) :
  sys_keeps (setcbreak n when).
Proof.
  intros w. unfold setcbreak.
  pose proof (sys_keeps_tcgetattr n w) as H1.
  destruct (tcgetattr n w) as [[mode|e] w1]; cbn in H1; [|exact H1].
  rewrite sys_keeps_tcsetattr. exact H1.
Qed.

Lemma sys_keeps_ioctl (n : Z) (buf : bytes) : sys_keeps (ioctl_TIOCGWINSZ n buf).
Proof.
  intros w. unfold ioctl_TIOCGWINSZ.
  destruct (is_open _ _); [destruct (winsize _)|]; reflexivity.
Qed.

Lemma sys_keeps_os_write (n : Z) (data : bytes) : sys_keeps (os_write n data).
Proof. intros w. unfold os_write. destruct (is_open _ _); reflexivity. Qed.

Lemma sys_keeps_select (n : Z) (timeout : option Q) : sys_keeps (select n timeout).
Proof. intros w. apply select_frame. Qed.

Lemma sys_keeps_os_read (n : Z) (amount : nat) : sys_keeps (os_read n amount).
Proof. intros w. unfold os_read. destruct (is_open _ _); reflexivity. Qed.

Create HintDb keeps.
#[local] Hint Resolve keeps_ret keeps_eval keeps_get keeps_set_is_cbreak
  keeps_lift keeps_try_finally keeps_try_except
  sys_keeps_tcgetattr sys_keeps_tcsetattr sys_keeps_setcbreak sys_keeps_ioctl
  sys_keeps_os_write sys_keeps_select sys_keeps_os_read : keeps.

Ltac keeps_step :=
  match goal with
  | |- keeps (bind _ _) => apply keeps_bind; [|intros ?]
  | |- keeps (try_except _ _) => apply keeps_try_except
  | |- keeps (try_finally _ _) => apply keeps_try_finally
  | |- keeps (if ?c then _ else _) => destruct c
  | |- keeps (match ?x with _ => _ end) => destruct x
  | |- keeps _ => solve [auto with keeps]
  end.

Lemma keeps_cbreak_mode {A} (body : M A) : keeps body -> keeps (cbreak_mode body).
Proof.
  intros Hb. unfold cbreak_mode, termios_attributes.
  repeat keeps_step.
Qed.

Lemma keeps_custom_state {A} (undo : option (M unit)) (body : M A) :
  keeps body -> (forall f, undo = Some f -> keeps f) ->
  keeps (custom_state undo body).
Proof.
  intros Hb Hu. unfold custom_state. apply keeps_try_finally; [exact Hb|].
  destruct undo as [f|]; [apply Hu; reflexivity|apply keeps_ret].
Qed.

Lemma keeps_query (s : str_or_bytes) (timeout : option Q) : keeps (query s timeout).
Proof. unfold query. apply keeps_cbreak_mode. repeat keeps_step. Qed.

Lemma keeps_read (amount : nat) (timeout : option Q) : keeps (read amount timeout).
Proof. unfold read. apply keeps_cbreak_mode. repeat keeps_step. Qed.

Lemma keeps_write_all (fuel : nat) (data : bytes) : keeps (write_all fuel data).
Proof.
  revert data. induction fuel as [|fuel IH]; intros data; cbn [write_all].
  - apply keeps_ret.
  - repeat keeps_step.
Qed.

Lemma keeps_write (s : str_or_bytes) : keeps (write s).
Proof. unfold write. repeat keeps_step. apply keeps_write_all. Qed.

#[local] Hint Resolve keeps_cbreak_mode keeps_query keeps_read keeps_write : keeps.

Lemma keeps_get_size : keeps get_size.
Proof. unfold get_size. repeat keeps_step. Qed.

Lemma keeps_query_color (slot : str) : keeps (query_color slot).
Proof. unfold query_color. repeat keeps_step. Qed.

#[local] Hint Resolve keeps_get_size keeps_query_color : keeps.

Lemma keeps_run (c : client) : keeps (run c).
Proof.
  induction c; cbn [run]; unfold void; repeat keeps_step.
  apply keeps_custom_state; [exact IHc2|].
  intros f Hf. inversion Hf. subst f. exact IHc1.
Qed.

(** *** Construction and [close] *)

Lemma init_captures (n : Z) (cfd : bool) (w0 w1 : world) (h : TerminalContext) :
  __init__ n cfd w0 = (Val h, w1) ->
  h = Handle cfd n false (attr w0)
  /\ ttys w1 = ttys w0
  /\ is_open n w0 = true.
Proof.
  unfold __init__, isatty.
  destruct (is_open n w0) eqn:Ho.
  - unfold tcgetattr. rewrite !is_open_log, Ho.
    intros H. inversion H. auto.
  - destruct (c_int n); discriminate.
Qed.

Lemma os_close_open (n : Z) (w : world) :
  is_open n w = true ->
  os_close n w =
    (Val tt, World (ttys w ∖ {[n]}) (attr w) (winsize w) (accepts w)
                   (arrivals w) (pending w) (sent w) (trace w ++ [Close n])).
Proof. intros H. unfold os_close. rewrite is_open_log, H. reflexivity. Qed.

Lemma close_open (s : state) :
  is_open (fd (self s)) (os s) = true ->
  close s =
    (Val tt,
     State (self s)
       (World (if close_fd (self s) then ttys (os s) ∖ {[fd (self s)]}
               else ttys (os s))
              (_initial_attr (self s)) (winsize (os s)) (accepts (os s))
              (arrivals (os s)) (pending (os s)) (sent (os s))
              (trace (os s)
               ++ TcSetAttr (fd (self s)) TCSADRAIN (_initial_attr (self s))
                  :: (if close_fd (self s) then [Close (fd (self s))] else [])))).
Proof.
  intros Hopen. destruct s as [h w]. fields.
  unfold close, bind, get, lift, ret. fields.
  rewrite (tcsetattr_open _ _ _ _ Hopen). fields.
  destruct (close_fd h).
  - rewrite os_close_open by exact Hopen. fields. traces.
  - reflexivity.
Qed.

(** *** The colour reply *)






Lemma plain_not_slash (l : bytes) :
  forallb plain l = true ->
  forallb (fun x => negb (Byte.eqb x "/")) l = true.
Proof.
  rewrite !forallb_forall. intros H x Hx. specialize (H x Hx).
  unfold plain in H. apply andb_true_iff in H as [H _].
  apply andb_true_iff in H as [H _]. exact H.
Qed.

Lemma split_app (sep : byte) (l r : bytes) :
  forallb (fun x => negb (Byte.eqb x sep)) l = true ->
  split sep (l ++ sep :: r) = l :: split sep r.
Proof.
  induction l as [|c t IH]; intros H; cbn.
  - rewrite Byte.byte_dec_lb by reflexivity. reflexivity.
  - cbn in H. apply andb_true_iff in H as [Hc Ht].
    apply negb_true_iff in Hc. rewrite Hc, (IH Ht). reflexivity.
Qed.

Lemma split_one (sep : byte) (l : bytes) :
  forallb (fun x => negb (Byte.eqb x sep)) l = true ->
  split sep l = [l].
Proof.
  induction l as [|c t IH]; intros H; cbn; [reflexivity|].
  cbn in H. apply andb_true_iff in H as [Hc Ht].
  apply negb_true_iff in Hc. rewrite Hc, (IH Ht). reflexivity.
Qed.

Lemma lstrip_app (chars t : bytes) (x : byte) (r : bytes) :
  forallb (fun c => mem c chars) t = true ->
  mem x chars = false ->
  lstrip chars (t ++ x :: r) = x :: r.
Proof.
  intros Ht Hx. induction t as [|c t IH]; cbn.
  - rewrite Hx. reflexivity.
  - cbn in Ht. apply andb_true_iff in Ht as [Hc Ht]. rewrite Hc. exact (IH Ht).
Qed.

Lemma forallb_rev_true {A} (f : A -> bool) (l : list A) :
  forallb f l = true -> forallb f (rev l) = true.
Proof.
  rewrite !forallb_forall. intros H x Hx. apply H, in_rev, Hx.
Qed.

(** [rstrip] takes a tail of strippable octets off and stops at the
    first octet that is not one. *)
Lemma rstrip_app (chars l : bytes) (x : byte) (t : bytes) :
  forallb (fun c => mem c chars) t = true ->
  mem x chars = false ->
  rstrip chars (l ++ x :: t) = l ++ [x].
Proof.
  intros Ht Hx. unfold rstrip.
  rewrite rev_app_distr. cbn [rev]. rewrite <- app_assoc. cbn [app].
  rewrite lstrip_app; [|apply forallb_rev_true, Ht|exact Hx].
  change (x :: rev l) with ([x] ++ rev l).
  rewrite rev_app_distr, rev_involutive. reflexivity.
Qed.

Lemma startswith_app (p l : bytes) : startswith p (p ++ l) = true.
Proof.
  induction p as [|c p IH]; [reflexivity|]. cbn.
  rewrite Byte.byte_dec_lb by reflexivity. exact IH.
Qed.

Lemma endswith_app (p l : bytes) : endswith p (l ++ p) = true.
Proof. unfold endswith. rewrite rev_app_distr. apply startswith_app. Qed.

Lemma slice_from {A} (k : nat) (l : list A) :
  slice (Some (Z.of_nat k)) None l = drop k l.
Proof.
  unfold slice, clamp. cbv zeta.
  assert (E : (Z.of_nat k <? 0) = false) by (apply Z.ltb_ge; lia).
  rewrite !E.
  destruct (Z.ltb_spec (Z.of_nat (length l)) (Z.of_nat k)).
  - rewrite Z.sub_diag, Nat2Z.id. cbn [Z.to_nat take].
    rewrite !drop_ge by lia. reflexivity.
  - rewrite Nat2Z.id, take_ge; [reflexivity|].
    rewrite length_drop. lia.
Qed.




(** The guards of the colour parser: a report without the OSC prefix,
    without a terminator or without the [rgb:] marker gives [None]. *)
Lemma color_of_report_guards (slot : str) (report : bytes) :
  startswith [ESC; "]"%byte] report = false
  \/ (endswith [ESC; BSL] report = false /\ endswith [BEL] report = false)
  \/ startswith (b "rgb:")
       (rstrip [BEL] (rstrip [ESC; BSL]
          (slice (Some (3 + (if str_eqb slot (u "fg") || str_eqb slot (u "bg")
                             then 2
                             else Z.of_nat (length (u "4;" ++ slot)))))
                 None report))) = false ->
  color_of_report slot report = Val None.
Proof.
  unfold color_of_report. intros [H|[[H1 H2]|H]].
  - rewrite H. reflexivity.
  - rewrite H1, H2, andb_false_r. reflexivity.
  - destruct (startswith [ESC; "]"%byte] report && _); [|reflexivity].
    rewrite H. reflexivity.
Qed.

(** C8 fails on the code: the channel values are parsed outside any
    [try], so a reply with the right prefix, terminator and marker but
    a channel that is no number, or with fewer than three channels,
    makes [query_color] raise [ValueError]. *)
Theorem query_color_raises_on_bad_channel :
  fst (query_color (u "fg") bad_channel_state) = Exc ValueError
  /\ color_of_report (u "fg") (ESC :: b "]10;rgb:12/34" ++ [BEL])
     = Exc ValueError.
Proof. split; vm_compute; reflexivity. Qed.

(** C2.  [close] applies the attribute set captured when the object
    was constructed and closes the descriptor exactly when the object
    owns it.  Let the construction succeed in the system [w0], and let
    any caller run afterwards (queries, writes, cbreak scopes, attribute
    changes made directly on the descriptor).  Then [close] succeeds,
    its one [tcsetattr] call carries the attributes of [w0], which are
    those in force afterwards, the descriptor is closed if and only if
    [close_fd] was given as true, and the cbreak flag has no influence
    on any of this. *)
Theorem close_applies_initial_attr (n : Z) (cfd : bool) (w0 w1 : world)
    (h : TerminalContext) (c : client) :
  __init__ n cfd w0 = (Val h, w1) ->
  let s2 := snd (run c (State h w1)) in
  let out := close s2 in
  _initial_attr h = attr w0
  /\ fst out = Val tt
  /\ attr (os (snd out)) = attr w0
  /\ trace (os (snd out)) =
       trace (os s2)
       ++ TcSetAttr n TCSADRAIN (attr w0) :: (if cfd then [Close n] else [])
  /\ ttys (os (snd out)) = (if cfd then ttys (os s2) ∖ {[n]} else ttys (os s2))
  /\ is_open n (os (snd out)) = negb cfd
  /\ (forall flag : bool,
        let out' := close (State (Handle cfd n flag (attr w0)) (os s2)) in
        fst out' = fst out /\ os (snd out') = os (snd out)).
Proof.
  intros Hinit s2 out.
  apply init_captures in Hinit as (-> & Htty & Hopen0).
  destruct (keeps_run c (State (Handle cfd n false (attr w0)) w1))
    as (Hfd & Hcfd & Hattr & Httys).
  fold s2 in Hfd, Hcfd, Hattr, Httys. fields.
  assert (Hopen : is_open (fd (self s2)) (os s2) = true).
  { rewrite Hfd. unfold is_open in *. rewrite Httys, Htty. exact Hopen0. }
  subst out. rewrite (close_open _ Hopen). fields.
  rewrite Hfd, Hcfd, Hattr.
  split; [reflexivity|]. split; [reflexivity|]. split; [reflexivity|].
  split; [reflexivity|]. split; [reflexivity|]. split.
  - unfold is_open. cbn [ttys]. destruct cfd; cbn [negb].
    + apply bool_decide_eq_false.
      intros [_ Hn]%elem_of_difference. apply Hn, elem_of_singleton. reflexivity.
    + rewrite <- Hfd. exact Hopen.
  - intros flag.
    rewrite close_open by (fields; rewrite <- Hfd; exact Hopen).
    fields. split; reflexivity.
Qed.

(** *** The properties on sample terminals *)

(** C1 on descriptor 0: inside an active scope the body runs alone;
    from outside, a body that raises leaves the attributes and the flag
    as they were, and its exception comes through. *)
Lemma cbreak_mode_single_flag_witness :
  cbreak_mode failing_body (active (tty_world None [] []))
    = failing_body (active (tty_world None [] []))
  /\ fst (cbreak_mode failing_body (fresh (tty_world None [] [])))
       = Exc (UserError 1)
  /\ attr (os (snd (cbreak_mode failing_body (fresh (tty_world None [] [])))))
       = sane
  /\ is_cbreak (self (snd (cbreak_mode failing_body (fresh (tty_world None [] [])))))
       = false.
Proof.
  split.
  - apply (proj1 (cbreak_mode_single_flag failing_body
                    (active (tty_world None [] [])))).
    reflexivity.
  - destruct (proj1 (proj2 (cbreak_mode_single_flag failing_body
                                (fresh (tty_world None [] []))))
                eq_refl eq_refl) as (_ & Hexit).
    destruct (Hexit eq_refl) as (H1 & _ & H3 & H4).
    split; [exact H1|]. split; [exact H3|exact H4].
Defined.

(** C2 on descriptor 0, owned: after a caller switched the echo off
    and queried inside a scope of its own, [close] puts the attributes
    of the construction back and closes the descriptor. *)
Lemma close_applies_initial_attr_witness :
  __init__ 0 true (tty_world None [] [])
    = (Val (Handle true 0 false sane),
       log (TcGetAttr 0) (log (Isatty 0) (tty_world None [] [])))
  /\ attr (os (snd (run stty_then_query
                      (State (Handle true 0 false sane)
                             (log (TcGetAttr 0)
                                  (log (Isatty 0) (tty_world None [] [])))))))
       = noecho
  /\ attr (os (snd (close (snd (run stty_then_query
                      (State (Handle true 0 false sane)
                             (log (TcGetAttr 0)
                                  (log (Isatty 0) (tty_world None [] [])))))))))
       = sane.
Proof.
  split; [reflexivity|]. split; [reflexivity|].
  apply (close_applies_initial_attr 0 true (tty_world None [] [])
           (log (TcGetAttr 0) (log (Isatty 0) (tty_world None [] [])))
           (Handle true 0 false sane) stty_then_query eq_refl).
Defined.





(** ** Further properties of the module *)

(** *** Scoped acquisition *)

Lemma init_open (n : Z) (cfd : bool) (w : world) :
  is_open n w = true ->
  __init__ n cfd w =
    (Val (Handle cfd n false (attr w)), log (TcGetAttr n) (log (Isatty n) w)).
Proof.
  intros H. unfold __init__, isatty.
  rewrite H, tcgetattr_open by (rewrite is_open_log; exact H). reflexivity.
Qed.

Lemma init_not_a_tty (n : Z) (cfd : bool) (w : world) :
  is_open n w = false ->
  c_int n = true ->
  __init__ n cfd w = (Exc TypeError, log (Isatty n) w).
Proof. intros H Hc. unfold __init__, isatty. rewrite H, Hc. reflexivity. Qed.

Lemma init_not_a_descriptor (n : Z) (cfd : bool) (w : world) :
  is_open n w = false ->
  c_int n = false ->
  __init__ n cfd w = (Exc OverflowError, log (Isatty n) w).
Proof. intros H Hc. unfold __init__, isatty. rewrite H, Hc. reflexivity. Qed.

(** The object is closed on every exit of the body of the [with]
    statement, when the body keeps the descriptor open. *)
Lemma with_handle_keeps {A} (t : TerminalContext) (body : M A) (w : world) :
  keeps body ->
  is_open (fd t) w = true ->
  with_handle t body w =
    (fst (body (State t w)),
     os (snd (close (snd (body (State t w))))))
  /\ fst (close (snd (body (State t w)))) = Val tt
  /\ fd (self (snd (body (State t w)))) = fd t
  /\ close_fd (self (snd (body (State t w)))) = close_fd t
  /\ _initial_attr (self (snd (body (State t w)))) = _initial_attr t
  /\ ttys (os (snd (body (State t w)))) = ttys w.
Proof.
  intros Hk Hopen. destruct (Hk (State t w)) as (Hfd & Hcfd & Hattr & Httys).
  fields.
  assert (Hopen1 : is_open (fd (self (snd (body (State t w)))))
                           (os (snd (body (State t w)))) = true).
  { rewrite Hfd. unfold is_open in *. rewrite Httys. exact Hopen. }
  unfold with_handle, try_finally.
  destruct (body (State t w)) as [r s1]. fields.
  rewrite (close_open _ Hopen1). fields. auto 10.
Qed.

(** X1.  Entering [terminal_context] on a number that is not a
    descriptor open on the terminal raises after the one [isatty]
    call, [TypeError] when the number is a C [int] and
    [OverflowError], from [isatty] itself, when it is not: the body of
    the [with] statement does not run, no attribute is read or set and
    nothing is closed. *)
Theorem terminal_context_not_a_terminal {A} (n : Z) (body : M A) (w : world) :
  is_open n w = false ->
  terminal_context n body w =
    (Exc (if c_int n then TypeError else OverflowError), log (Isatty n) w).
Proof.
  intros H. unfold terminal_context. destruct (c_int n) eqn:Hc.
  - rewrite (init_not_a_tty _ _ _ H Hc). reflexivity.
  - rewrite (init_not_a_descriptor _ _ _ H Hc). reflexivity.
Qed.

(** X2.  [terminal_context] on an open terminal, around any caller:
    the outcome of the body is passed on (value or exception), the
    attributes in force afterwards are those found at entry, the last
    call is the [tcsetattr] that applies them, and the descriptor stays
    open. *)
Theorem terminal_context_restores (n : Z) (c : client) (w : world) :
  is_open n w = true ->
  let t := Handle false n false (attr w) in
  let w1 := log (TcGetAttr n) (log (Isatty n) w) in
  let out := terminal_context n (run c) w in
  fst out = fst (run c (State t w1))
  /\ attr (snd out) = attr w
  /\ ttys (snd out) = ttys w
  /\ trace (snd out) =
       trace (os (snd (run c (State t w1))))
       ++ [TcSetAttr n TCSADRAIN (attr w)].
Proof.
  intros Hopen t w1 out. subst out. unfold terminal_context.
  rewrite (init_open _ _ _ Hopen). fold t w1.
  destruct (with_handle_keeps t (run c) w1 (keeps_run c) Hopen)
    as (Hw & _ & Hfd & Hcfd & Hattr & Httys).
  rewrite Hw. fields.
  assert (Hopen1 : is_open (fd (self (snd (run c (State t w1)))))
                           (os (snd (run c (State t w1)))) = true).
  { rewrite Hfd. unfold is_open in *. rewrite Httys. exact Hopen. }
  rewrite (close_open _ Hopen1). fields.
  rewrite Hfd, Hcfd, Hattr. cbn [close_fd t _initial_attr fd].
  repeat split; assumption.
Qed.

(** X3.  [cterminal_context] closes what it opened.  When the kernel
    hands out a descriptor that was not open, [from_cterm] builds an
    object that owns it; around any caller the scope ends with the
    calls [tcsetattr] (attributes found at entry) and [close], so the
    set of open descriptors and the attributes are as before. *)
Theorem cterminal_context_closes_what_it_opened (alloc : gset Z -> Z)
    (c : client) (w : world) :
  is_open (alloc (ttys w)) w = false ->
  let n := alloc (ttys w) in
  let t := Handle true n false (attr w) in
  let w1 := log (TcGetAttr n) (log (Isatty n)
              (World (ttys w ∪ {[n]}) (attr w) (winsize w) (accepts w)
                     (arrivals w) (pending w) (sent w) (trace w))) in
  let out := cterminal_context alloc (run c) w in
  from_cterm alloc w = (Val t, w1)
  /\ fst out = fst (run c (State t w1))
  /\ attr (snd out) = attr w
  /\ ttys (snd out) = ttys w
  /\ trace (snd out) =
       trace (os (snd (run c (State t w1))))
       ++ [TcSetAttr n TCSADRAIN (attr w); Close n].
Proof.
  intros Hfresh n t w1 out. subst out.
  assert (Hnew : is_open n (World (ttys w ∪ {[n]}) (attr w) (winsize w)
                   (accepts w) (arrivals w) (pending w) (sent w) (trace w))
                 = true).
  { apply bool_decide_eq_true. cbn [ttys]. apply elem_of_union_r, elem_of_singleton.
    reflexivity. }
  assert (Hfrom : from_cterm alloc w = (Val t, w1)).
  { unfold from_cterm, os_open_ctermid. fold n. rewrite (init_open _ _ _ Hnew).
    reflexivity. }
  split; [exact Hfrom|].
  unfold cterminal_context. rewrite Hfrom.
  assert (Hopen : is_open (fd t) w1 = true) by exact Hnew.
  destruct (with_handle_keeps t (run c) w1 (keeps_run c) Hopen)
    as (Hw & _ & Hfd & Hcfd & Hattr & Httys).
  rewrite Hw. fields.
  assert (Hopen1 : is_open (fd (self (snd (run c (State t w1)))))
                           (os (snd (run c (State t w1)))) = true).
  { rewrite Hfd. unfold is_open in *. rewrite Httys. exact Hopen. }
  rewrite (close_open _ Hopen1). fields.
  rewrite Hfd, Hcfd, Hattr, Httys. cbn [close_fd t _initial_attr fd ttys w1 log].
  repeat split; try reflexivity.
  apply bool_decide_eq_false in Hfresh. fold n in Hfresh.
  apply set_eq. intros x. rewrite elem_of_difference, elem_of_union, elem_of_singleton.
  split.
  - intros [[Hx|Hx] Hne]; [exact Hx|contradiction].
  - intros Hx. split; [left; exact Hx|]. intros ->. contradiction.
Qed.


(** *** Closed descriptors *)

Lemma tcsetattr_closed (n : Z) (when : optional_action) (a : termios) (w : world) :
  is_open n w = false ->
  tcsetattr n when a w = (Exc TermiosError, log (TcSetAttr n when a) w).
Proof. intros H. unfold tcsetattr. rewrite is_open_log, H. reflexivity. Qed.

Lemma tcgetattr_closed (n : Z) (w : world) :
  is_open n w = false ->
  tcgetattr n w = (Exc TermiosError, log (TcGetAttr n) w).
Proof. intros H. unfold tcgetattr. rewrite is_open_log, H. reflexivity. Qed.

Lemma close_closed (s : state) :
  is_open (fd (self s)) (os s) = false ->
  close s =
    (Exc TermiosError,
     State (self s)
           (log (TcSetAttr (fd (self s)) TCSADRAIN (_initial_attr (self s))) (os s))).
Proof.
  intros H. destruct s as [h w]. fields.
  unfold close, bind, get, lift. fields.
  rewrite (tcsetattr_closed _ _ _ _ H). reflexivity.
Qed.

(** X4.  Closing twice.  The first [close] of an open handle succeeds.
    The second makes the [tcsetattr] call again and nothing else: on a
    handle that owns its descriptor it raises [termios.error], because
    the descriptor is gone, and it never reaches a second [os.close];
    on a handle that does not, it succeeds and changes nothing. *)
Theorem close_twice (s : state) :
  is_open (fd (self s)) (os s) = true ->
  let s1 := snd (close s) in
  let out := close s1 in
  fst (close s) = Val tt
  /\ fst out = (if close_fd (self s) then Exc TermiosError else Val tt)
  /\ attr (os (snd out)) = _initial_attr (self s)
  /\ ttys (os (snd out)) = ttys (os s1)
  /\ trace (os (snd out)) =
       trace (os s1)
       ++ [TcSetAttr (fd (self s)) TCSADRAIN (_initial_attr (self s))].
Proof.
  intros Hopen s1 out. subst out s1.
  rewrite (close_open _ Hopen). fields.
  split; [reflexivity|].
  destruct (close_fd (self s)) eqn:Hcfd.
  - rewrite close_closed.
    + fields. repeat split.
    + fields. apply bool_decide_eq_false.
      intros [_ Hn]%elem_of_difference. apply Hn, elem_of_singleton. reflexivity.
  - rewrite close_open by (fields; exact Hopen).
    fields. rewrite Hcfd. repeat split.
Qed.

(** X5.  Use after close.  With the cbreak flag clear and the
    descriptor closed, a cbreak scope raises [termios.error] from its
    snapshot, before the body runs; so do [query] and [read], which
    write nothing and wait for nothing. *)
Theorem cbreak_mode_closed_descriptor {A} (body : M A) (s : state)
    (req : str_or_bytes) (amount : nat) (timeout : option Q) :
  is_cbreak (self s) = false ->
  is_open (fd (self s)) (os s) = false ->
  let failed := State (self s) (log (TcGetAttr (fd (self s))) (os s)) in
  cbreak_mode body s = (Exc TermiosError, failed)
  /\ query req timeout s = (Exc TermiosError, failed)
  /\ read amount timeout s = (Exc TermiosError, failed).
Proof.
  intros Hflag Hclosed failed.
  assert (H : forall B (m : M B), cbreak_mode m s = (Exc TermiosError, failed)).
  { intros B m. unfold cbreak_mode, termios_attributes.
    unfold bind, get, lift. rewrite Hflag.
    rewrite (tcgetattr_closed _ _ Hclosed). reflexivity. }
  split; [apply H|]. split; apply H.
Qed.

(** X6.  [close] called inside an activating cbreak scope.  If the
    handle owns the descriptor, the exit of the scope raises
    [termios.error] and the flag stays set.  If it does not, the exit
    of the scope reapplies its entry snapshot over the initial
    attributes [close] had just put in force. *)
Theorem close_inside_cbreak_scope (s : state) :
  is_cbreak (self s) = false ->
  is_open (fd (self s)) (os s) = true ->
  let out := cbreak_mode close s in
  if close_fd (self s) then
    fst out = Exc TermiosError
    /\ is_cbreak (self (snd out)) = true
    /\ is_open (fd (self s)) (os (snd out)) = false
    /\ attr (os (snd out)) = _initial_attr (self s)
  else
    fst out = Val tt
    /\ is_cbreak (self (snd out)) = false
    /\ is_open (fd (self s)) (os (snd out)) = true
    /\ attr (os (snd out)) = attr (os s).
Proof.
  intros Hflag Hopen out. subst out.
  assert (He : is_open (fd (self (entered s))) (os (entered s)) = true)
    by exact Hopen.
  pose proof (close_open _ He) as Hc.
  destruct s as [[cfd n flag ia] w]. fields. subst flag.
  destruct cfd.
  - rewrite cbreak_mode_exit_closed; rewrite ?Hc; fields; try assumption;
      try reflexivity.
    + cbn [entered self os fd close_fd ttys log attr _initial_attr].
      repeat split.
      apply bool_decide_eq_false.
      intros [_ Hn]%elem_of_difference. apply Hn, elem_of_singleton. reflexivity.
    + cbn [entered self os fd close_fd ttys]. apply bool_decide_eq_false.
      intros [_ Hn]%elem_of_difference. apply Hn, elem_of_singleton. reflexivity.
  - rewrite cbreak_mode_inactive; rewrite ?Hc; fields; try assumption;
      try reflexivity.
    cbn [entered restored self os fd close_fd ttys attr is_cbreak].
    repeat split. exact Hopen.
Qed.


(** *** Exchanges and reads *)







(** X11.  A text request that cannot be encoded (a lone surrogate)
    makes [query] raise the encoding error from inside its scope:
    nothing is written, and the attributes, the flag and the object are
    as before. *)
Theorem query_unencodable_text (text : str) (e : exn) (timeout : option Q)
    (s : state) :
  encode_utf8 text = Exc e ->
  is_open (fd (self s)) (os s) = true ->
  let out := query (Str text) timeout s in
  fst out = Exc e
  /\ self (snd out) = self s
  /\ attr (os (snd out)) = attr (os s)
  /\ sent (os (snd out)) = sent (os s)
  /\ exists calls,
       trace (os (snd out)) = trace (os s) ++ calls
       /\ List.filter is_write calls = [].
Proof.
  intros Henc Hopen out. subst out. unfold query, as_bytes. rewrite Henc.
  assert (Hbody : forall s0,
    (let* n := get fd in
     let* data := eval (Exc e) in
     let* _ := lift (os_write n data) in
     let* n0 := get fd in
     let* can_read := lift (select n0 timeout) in
     if can_read then let* n1 := get fd in lift (os_read n1 1024) else ret []) s0
    = (Exc e, s0)).
  { intros s0. reflexivity. }
  destruct (is_cbreak (self s)) eqn:Hflag.
  - rewrite cbreak_mode_active by exact Hflag. rewrite Hbody. fields.
    repeat split. exists []. rewrite app_nil_r. auto.
  - rewrite cbreak_mode_inactive; rewrite ?Hbody; fields; try assumption.
    destruct s as [[cfd n flag ia] w]. fields. subst flag.
    cbn [restored entered self os attr sent trace fd close_fd _initial_attr].
    repeat split. eexists. rewrite <- app_assoc. split; reflexivity.
Qed.


(** *** Queries inside one scope *)



(** *** The loop of [write] *)

Lemma write_all_shape (fuel : nat) :
  forall (data : bytes) (s : state),
  exists (calls : list call) (k : nat),
    trace (os (snd (write_all fuel data s))) = trace (os s) ++ calls
    /\ forallb is_write calls = true
    /\ (length calls <= fuel)%nat
    /\ sent (os (snd (write_all fuel data s))) = sent (os s) ++ take k data
    /\ attr (os (snd (write_all fuel data s))) = attr (os s)
    /\ self (snd (write_all fuel data s)) = self s.
Proof.
  induction fuel as [|fuel IH]; intros data s.
  - exists [], 0%nat. cbn. rewrite !app_nil_r. repeat split. lia.
  - cbn [write_all]. unfold bind, get, lift. fields.
    destruct (is_open (fd (self s)) (os s)) eqn:Hopen.
    + rewrite (os_write_open _ _ _ Hopen).
      destruct (accepted (os s) data) as [|a] eqn:Ha.
      * exists [Write (fd (self s)) data], 0%nat. cbn.
        rewrite !app_nil_r. repeat split. lia.
      * cbn [Nat.eqb].
        match goal with
        | |- context [write_all fuel ?d ?s1] =>
            destruct (IH d s1) as (calls & k & Ht & Hw & Hl & Hs & Hattr & Hself)
        end.
        exists (Write (fd (self s)) data :: calls), (S a + k)%nat.
        rewrite Ht, Hs, Hattr, Hself. fields.
        rewrite <- !app_assoc. cbn [app forallb is_write length andb].
        rewrite take_take_drop.
        repeat split; try assumption. lia.
    + unfold os_write. rewrite is_open_log, Hopen.
      exists [Write (fd (self s)) data], 0%nat. cbn.
      rewrite !app_nil_r. repeat split. lia.
Qed.

(** X13.  [write] does not touch the mode and sends nothing but the
    data: all its calls are [os.write] calls, at most one more than
    the data has octets; what it transmits is a prefix of the data in
    order; attributes and object are unchanged. *)
Theorem write_only_writes_a_prefix (req : str_or_bytes) (data : bytes) (s : state) :
  as_bytes req = Val data ->
  let out := write req s in
  exists (calls : list call) (k : nat),
    trace (os (snd out)) = trace (os s) ++ calls
    /\ forallb is_write calls = true
    /\ (length calls <= S (length data))%nat
    /\ sent (os (snd out)) = sent (os s) ++ take k data
    /\ attr (os (snd out)) = attr (os s)
    /\ self (snd out) = self s.
Proof.
  intros Hreq out. subst out. unfold write.
  rewrite (bind_val _ _ s s data) by (unfold eval; rewrite Hreq; reflexivity).
  apply write_all_shape.
Qed.

Lemma willing_Forall (w : world) :
  willing w = true -> Forall (fun k => (1 <= k)%nat) (accepts w).
Proof.
  unfold willing. rewrite forallb_forall, List.Forall_forall.
  intros H k Hk. apply Nat.leb_le, H, Hk.
Qed.

Lemma write_willing (req : str_or_bytes) (data : bytes) (s : state) :
  as_bytes req = Val data ->
  is_open (fd (self s)) (os s) = true ->
  willing (os s) = true ->
  fst (write req s) = Val tt
  /\ sent (os (snd (write req s))) = sent (os s) ++ data.
Proof.
  intros Hreq Hopen Hw. unfold write.
  rewrite (bind_val _ _ s s data) by (unfold eval; rewrite Hreq; reflexivity).
  apply write_all_sends; [lia|exact Hopen|apply willing_Forall, Hw].
Qed.

(** X14.  On a device that takes at least one octet per call, [write]
    returns normally and has transmitted the whole payload. *)
Theorem write_sends_everything (req : str_or_bytes) (data : bytes) (s : state) :
  as_bytes req = Val data ->
  is_open (fd (self s)) (os s) = true ->
  willing (os s) = true ->
  fst (write req s) = Val tt
  /\ sent (os (snd (write req s))) = sent (os s) ++ data.
Proof. apply write_willing. Qed.

(** X15.  On a device that takes nothing, [write] gives up at once
    and silently: one [os.write] call, nothing transmitted, no
    exception. *)
Theorem write_gives_up_on_stalled_device (req : str_or_bytes) (data : bytes)
    (rest : list nat) (s : state) :
  as_bytes req = Val data ->
  is_open (fd (self s)) (os s) = true ->
  accepts (os s) = 0%nat :: rest ->
  let out := write req s in
  fst out = Val tt
  /\ sent (os (snd out)) = sent (os s)
  /\ trace (os (snd out)) = trace (os s) ++ [Write (fd (self s)) data].
Proof.
  intros Hreq Hopen Hacc out. subst out. unfold write.
  rewrite (bind_val _ _ s s data) by (unfold eval; rewrite Hreq; reflexivity).
  cbn [write_all]. unfold bind, get, lift. fields.
  rewrite (os_write_open _ _ _ Hopen).
  unfold accepted. rewrite Hacc. cbn. rewrite app_nil_r. auto.
Qed.

(** X16.  The undo of [custom_state] runs on every exit.  With an undo
    that writes a reset sequence, whatever the body did and however it
    ended, the outcome of the body is passed on and the last octets
    transmitted are that sequence (the device being willing); without
    an undo the scope is its body. *)
Theorem custom_state_undo_on_every_exit {A} (body : M A) (data : bytes)
    (s : state) :
  is_open (fd (self (snd (body s)))) (os (snd (body s))) = true ->
  willing (os (snd (body s))) = true ->
  let out := custom_state (Some (write (Bytes data))) body s in
  fst out = fst (body s)
  /\ sent (os (snd out)) = sent (os (snd (body s))) ++ data
  /\ custom_state None body s = body s.
Proof.
  intros Hopen Hw out. subst out. unfold custom_state, try_finally.
  destruct (body s) as [r s1]. fields.
  destruct (write_willing (Bytes data) data s1 eq_refl Hopen Hw)
    as [Hr Hs].
  destruct (write (Bytes data) s1) as [[[]|e] s2]; fields; [|discriminate].
  auto.
Qed.


(** *** More on the window size *)

Lemma to_N_octet (n : N) : Byte.to_N (octet n) = (n mod 256)%N.
Proof.
  unfold octet. destruct (Byte.of_N (n mod 256)) as [c|] eqn:E.
  - apply Byte.to_of_N, E.
  - apply Byte.of_N_None_iff in E.
    pose proof (N.mod_upper_bound n 256). lia.
Qed.

Lemma unpack_pack_H (v : Z) :
  0 <= v < 65536 ->
  match pack_H v with
  | [lo; hi] => unpack_H lo hi = v
  | _ => False
  end.
Proof.
  intros Hv. unfold pack_H, unpack_H. rewrite !to_N_octet.
  rewrite !N2Z.inj_mod, !Z2N.id by (apply Z.mod_pos_bound; lia).
  rewrite !Z.mod_mod by lia.
  rewrite (Z.mod_small (v / 256)) by (split; [apply Z.div_pos; lia|apply Z.div_lt_upper_bound; lia]).
  pose proof (Z.div_mod v 256). lia.
Qed.

Lemma ioctl_yields_in_range (w : world) (r c x y : Z) :
  winsize w = Some (r, c, x, y) ->
  0 <= r < 65536 -> 0 <= c < 65536 -> 0 <= x < 65536 -> 0 <= y < 65536 ->
  ioctl_yields w = (r, c, x, y).
Proof.
  intros Hws Hr Hc Hx Hy. unfold ioctl_yields. rewrite Hws.
  pose proof (unpack_pack_H r Hr) as Pr. pose proof (unpack_pack_H c Hc) as Pc.
  pose proof (unpack_pack_H x Hx) as Px. pose proof (unpack_pack_H y Hy) as Py.
  unfold pack_HHHH. unfold pack_H in *. cbn [app unpack_HHHH].
  rewrite Pr, Pc, Px, Py. reflexivity.
Qed.

(** X17.  When the kernel knows a window size whose four fields are
    not zero, [get_size] returns them as (cols, rows, xpixel, ypixel),
    the first two swapped against the order of the kernel, and makes
    the ioctl and no other call. *)
Theorem get_size_from_ioctl_alone (s : state) (r c x y : Z) :
  is_open (fd (self s)) (os s) = true ->
  winsize (os s) = Some (r, c, x, y) ->
  0 < r < 65536 -> 0 < c < 65536 -> 0 < x < 65536 -> 0 < y < 65536 ->
  get_size s =
    (Val (c, r, x, y),
     State (self s) (log (IoctlWinsz (fd (self s))) (os s))).
Proof.
  intros Hopen Hws Hr Hc Hx Hy.
  rewrite (get_size_open _ Hopen). unfold get_size_model.
  rewrite (ioctl_yields_in_range _ r c x y Hws) by lia.
  assert (C1 : (r =? 0) || (c =? 0) = false).
  { apply orb_false_iff. split; apply Z.eqb_neq; lia. }
  assert (C2 : (x =? 0) || (y =? 0) = false).
  { apply orb_false_iff. split; apply Z.eqb_neq; lia. }
  rewrite C1, C2. reflexivity.
Qed.






(** *** The colour request *)

Lemma encode_utf8_app (x y : str) :
  encode_utf8 (x ++ y) =
    res_bind (encode_utf8 x) (fun ex =>
    res_bind (encode_utf8 y) (fun ey => Val (ex ++ ey))).
Proof.
  induction x as [|c x IH]; cbn.
  - destruct (encode_utf8 y); reflexivity.
  - destruct (encode_char c) as [ec|]; [|reflexivity]. cbn.
    rewrite IH. destruct (encode_utf8 x) as [ex|]; [|reflexivity]. cbn.
    destruct (encode_utf8 y) as [ey|]; [|reflexivity]. cbn.
    rewrite app_assoc. reflexivity.
Qed.

Lemma encode_osc_request (slot : str) (e : bytes) :
  encode_utf8 slot = Val e ->
  as_bytes (Str (27%N :: u "]"
                 ++ (if str_eqb slot (u "fg") then u "10"
                     else if str_eqb slot (u "bg") then u "11"
                     else u "4;" ++ slot)
                 ++ u ";?" ++ [27%N; 92%N]))
  = Val (osc_request slot e).
Proof.
  intros He. unfold osc_request, as_bytes.
  destruct (str_eqb slot (u "fg")); [reflexivity|].
  destruct (str_eqb slot (u "bg")); [reflexivity|].
  change (27%N :: u "]" ++ (u "4;" ++ slot) ++ u ";?" ++ [27%N; 92%N])
    with ((27%N :: u "]4;") ++ slot ++ (u ";?" ++ [27%N; 92%N])).
  rewrite !encode_utf8_app, He. reflexivity.
Qed.

(** X21.  The request of [query_color]: the one write carries
    [ESC ] 10 ; ? ESC \] for the foreground, [ESC ] 11 ; ? ESC \]
    for the background and [ESC ] 4 ; slot ; ? ESC \] for any other
    slot, the slot in UTF-8; attributes and object are unchanged. *)
Theorem query_color_request (slot : str) (e : bytes) (s : state) :
  encode_utf8 slot = Val e ->
  is_open (fd (self s)) (os s) = true ->
  exists calls,
    trace (os (snd (query_color slot s))) = trace (os s) ++ calls
    /\ List.filter is_write calls = [Write (fd (self s)) (osc_request slot e)]
    /\ attr (os (snd (query_color slot s))) = attr (os s)
    /\ self (snd (query_color slot s)) = self s.
Proof.
  intros He Hopen. unfold query_color.
  erewrite bind_val
    by (apply (query_open _ _ _ _ (encode_osc_request slot e He) (wait_ends_default _) Hopen)).
  unfold eval. fields.
  eexists. split; [reflexivity|]. split; [|split; reflexivity].
  unfold query_calls.
  destruct (is_cbreak (self s)), (nonempty (incoming (os s))); reflexivity.
Qed.

(** *** Colour replies in any notation *)

Lemma int_char_plain (c : byte) : implb (int_char c) (plain c) = true.
Proof. destruct c; reflexivity. Qed.

Lemma int_chars_plain (l : bytes) :
  forallb int_char l = true -> forallb plain l = true.
Proof.
  rewrite !forallb_forall. intros H x Hx. specialize (H x Hx).
  pose proof (int_char_plain x) as Hp. rewrite H in Hp. exact Hp.
Qed.

Lemma space_int_char (l : bytes) :
  forallb is_space l = true -> forallb int_char l = true.
Proof.
  rewrite !forallb_forall. intros H x Hx. unfold int_char.
  rewrite (H x Hx). reflexivity.
Qed.

Lemma lstrip_space_split (s : bytes) :
  exists sp, s = sp ++ lstrip_space s /\ forallb is_space sp = true.
Proof.
  induction s as [|c t (sp & Ht & Hsp)]; [exists []; auto|].
  cbn. destruct (is_space c) eqn:E.
  - exists (c :: sp). cbn. rewrite E, Hsp. rewrite <- Ht. auto.
  - exists []. auto.
Qed.

Lemma read_sign_chars (s : bytes) :
  forallb int_char (snd (read_sign s)) = true -> forallb int_char s = true.
Proof.
  destruct s as [|c t]; [auto|]. cbn.
  destruct (Byte.eqb c x2b) eqn:E1.
  - cbn. intros ->. unfold int_char. rewrite E1. rewrite orb_true_r. reflexivity.
  - destruct (Byte.eqb c x2d) eqn:E2; [|auto].
    cbn. intros ->. unfold int_char. rewrite E2, !orb_true_r. reflexivity.
Qed.

Lemma skip_prefix_chars (base : Z) (s : bytes) :
  forallb int_char (skip_prefix base s) = true -> forallb int_char s = true.
Proof.
  destruct s as [|c0 [|c1 t]]; [auto|auto|]. cbn [skip_prefix].
  destruct ((base =? 16) && Byte.eqb c0 x30
            && (Byte.eqb c1 x78 || Byte.eqb c1 x58)) eqn:E; [|auto].
  apply andb_true_iff in E as [E E1]. apply andb_true_iff in E as [_ E0].
  apply Byte.byte_dec_bl in E0. subst c0.
  assert (H1 : int_char c1 = true).
  { apply orb_true_iff in E1 as [E1|E1]; apply Byte.byte_dec_bl in E1;
      subst c1; reflexivity. }
  destruct t as [|c2 t'].
  - intros _. cbn. rewrite H1. reflexivity.
  - destruct (is_underscore c2) eqn:E2.
    + intros H. cbn. rewrite H1, H. unfold int_char. rewrite E2.
      rewrite !orb_true_r. reflexivity.
    + intros H.
      change (forallb int_char (x30 :: c1 :: c2 :: t'))
        with (true && (int_char c1 && forallb int_char (c2 :: t'))).
      rewrite H1, H. reflexivity.
Qed.

Lemma scan_digits_chars (base : Z) (s : bytes) :
  forall (prev_us : bool) (acc v : Z) (rest : bytes),
    scan_digits base prev_us acc s = Some (v, rest) ->
    exists taken, s = taken ++ rest /\ forallb int_char taken = true.
Proof.
  induction s as [|c t IH]; intros prev_us acc v rest H.
  - cbn in H. destruct prev_us; inversion H. exists []. auto.
  - cbn in H. destruct (is_underscore c) eqn:Eu.
    + destruct prev_us; [discriminate|].
      apply IH in H as (taken & -> & Ht). exists (c :: taken).
      split; [reflexivity|]. cbn. rewrite Ht. unfold int_char. rewrite Eu.
      rewrite !orb_true_r. reflexivity.
    + destruct (digit_value c) as [d|] eqn:Ed.
      * destruct (d <? base).
        -- apply IH in H as (taken & -> & Ht). exists (c :: taken).
           split; [reflexivity|]. cbn. rewrite Ht. unfold int_char. rewrite Ed.
           rewrite !orb_true_r. reflexivity.
        -- destruct prev_us; inversion H. exists []. auto.
      * destruct prev_us; inversion H. exists []. auto.
Qed.

(** A number [int] accepts is made of white space, a sign, digits,
    letters and underscores, and is not empty. *)
Lemma int_chars (base : Z) (s : bytes) (n : Z) :
  int base s = Val n -> forallb int_char s = true /\ s <> [].
Proof.
  intros H. split; [|intros ->; discriminate H].
  unfold int in H.
  destruct (lstrip_space_split s) as (sp & Hs & Hsp).
  rewrite Hs, forallb_app, (space_int_char _ Hsp). cbn [andb].
  apply read_sign_chars.
  destruct (read_sign (lstrip_space s)) as [sign s2]. cbn [snd].
  apply (skip_prefix_chars base).
  destruct (skip_prefix base s2) as [|c s3]; [discriminate|].
  destruct (is_underscore c); [discriminate|].
  destruct (scan_digits base false 0 (c :: s3)) as [[v rest]|] eqn:Hscan;
    [|discriminate].
  apply scan_digits_chars in Hscan as (taken & -> & Ht).
  destruct (_ =? _)%nat; [discriminate|].
  destruct (lstrip_space_split rest) as (sp' & Hr & Hsp').
  destruct (lstrip_space rest); [|discriminate].
  rewrite app_nil_r in Hr. subst sp'.
  rewrite forallb_app, Ht, (space_int_char _ Hsp'). reflexivity.
Qed.

Lemma hex_octet (c : byte) :
  zfill 2 (slice (Some 2) None (hex (Z.of_N (Byte.to_N c)))) = hexstr c.
Proof. destruct c; reflexivity. Qed.

(** A channel within 16 bits gives the two digits of its high octet. *)
Lemma channel_value (v : bytes) (n : Z) :
  int 16 v = Val n -> 0 <= n < 65536 ->
  channel v = Val (hexstr (high_octet n)).
Proof.
  intros Hv Hn. unfold channel. rewrite Hv. cbn [res_bind].
  rewrite <- hex_octet. unfold high_octet. rewrite to_N_octet.
  rewrite Z.shiftr_div_pow2 by lia. change (2 ^ 8) with 256.
  assert (Hk : 0 <= n / 256 < 256).
  { split; [apply Z.div_pos; lia|apply Z.div_lt_upper_bound; lia]. }
  rewrite N.mod_small by lia. rewrite Z2N.id by lia. reflexivity.
Qed.

(** X22.  The colour parser on any slot and any notation.  It skips
    the code part of the reply by its length alone, [code_length slot]
    characters and the separator, without comparing it; and for three
    channels that [int(v, 16)] accepts and that lie within 16 bits
    (upper or lower case, [0x] prefix, underscores, white space) the
    result is [#] and the two lowercase digits of each high octet. *)
Theorem color_of_report_any_notation (slot : str) (code c1 c2 c3 st : bytes)
    (n1 n2 n3 : Z) :
  length code = S (code_length slot) ->
  st = [ESC; BSL] \/ st = [BEL] ->
  int 16 c1 = Val n1 -> int 16 c2 = Val n2 -> int 16 c3 = Val n3 ->
  0 <= n1 < 65536 -> 0 <= n2 < 65536 -> 0 <= n3 < 65536 ->
  color_of_report slot (osc_reply code c1 c2 c3 st) =
    Val (Some (u "#" ++ hexstr (high_octet n1) ++ hexstr (high_octet n2)
                     ++ hexstr (high_octet n3))).
Proof.
  intros Hcode Hst H1 H2 H3 R1 R2 R3.
  destruct (int_chars _ _ _ H1) as [P1 _].
  destruct (int_chars _ _ _ H2) as [P2 _].
  destruct (int_chars _ _ _ H3) as [P3 N3].
  apply int_chars_plain in P1, P2, P3.
  destruct (exists_last N3) as (l & x & ->).
  rewrite forallb_app in P3. apply andb_true_iff in P3 as [Pl Px].
  cbn [forallb] in Px. rewrite andb_true_r in Px.
  assert (P3 : forallb plain (l ++ [x]) = true).
  { rewrite forallb_app, Pl. cbn. rewrite Px. reflexivity. }
  unfold color_of_report.
  set (head := b "rgb:" ++ c1 ++ "/"%byte :: c2 ++ "/"%byte :: l).
  assert (Hshape : osc_reply code c1 c2 (l ++ [x]) st
                   = ([ESC; "]"%byte] ++ code) ++ (head ++ [x]) ++ st).
  { unfold osc_reply, head. change (b "]") with ["]"%byte].
    change (b "/") with ["/"%byte]. rewrite <- !app_assoc. cbn [app].
    rewrite <- !app_assoc. reflexivity. }
  rewrite Hshape.
  assert (Hguard :
    startswith [ESC; "]"%byte] (([ESC; "]"%byte] ++ code) ++ (head ++ [x]) ++ st)
    && (endswith [ESC; BSL] (([ESC; "]"%byte] ++ code) ++ (head ++ [x]) ++ st)
        || endswith [BEL] (([ESC; "]"%byte] ++ code) ++ (head ++ [x]) ++ st))
    = true).
  { apply andb_true_iff. split.
    - rewrite <- app_assoc. apply startswith_app.
    - rewrite !app_assoc.
      destruct Hst as [-> | ->]; rewrite endswith_app;
        [reflexivity|apply orb_true_r]. }
  rewrite Hguard.
  assert (Hoff : 3 + (if str_eqb slot (u "fg") || str_eqb slot (u "bg")
                      then 2 else Z.of_nat (length (u "4;" ++ slot)))
                 = Z.of_nat (length ([ESC; "]"%byte] ++ code))).
  { cbn [app length]. rewrite Hcode. unfold code_length.
    destruct (str_eqb slot (u "fg") || str_eqb slot (u "bg")); cbn [length]; lia. }
  rewrite Hoff, slice_from, drop_app_length.
  unfold plain in Px. apply andb_true_iff in Px as [Px Hbel].
  apply andb_true_iff in Px as [_ Hst1].
  apply negb_true_iff in Hbel, Hst1.
  assert (Hstrip : rstrip [BEL] (rstrip [ESC; BSL] ((head ++ [x]) ++ st))
                   = head ++ [x]).
  { rewrite <- app_assoc. cbn [app].
    destruct Hst as [-> | ->].
    - rewrite (rstrip_app [ESC; BSL] head x [ESC; BSL]) by (reflexivity || assumption).
      rewrite (rstrip_app [BEL] head x []) by (reflexivity || assumption).
      reflexivity.
    - replace (head ++ [x; BEL]) with ((head ++ [x]) ++ BEL :: [])
        by (rewrite <- app_assoc; reflexivity).
      rewrite (rstrip_app [ESC; BSL] (head ++ [x]) BEL []) by reflexivity.
      rewrite <- !app_assoc. cbn [app].
      rewrite (rstrip_app [BEL] head x [BEL]) by (reflexivity || assumption).
      reflexivity. }
  rewrite Hstrip. unfold head. rewrite <- !app_assoc.
  rewrite startswith_app.
  change 4 with (Z.of_nat (length (b "rgb:"))). rewrite slice_from, drop_app_length.
  cbn [app]. rewrite <- !app_assoc. cbn [app].
  rewrite split_app by (apply plain_not_slash, P1).
  rewrite split_app by (apply plain_not_slash, P2).
  rewrite split_one by (apply plain_not_slash, P3).
  cbn [comprehension].
  rewrite (channel_value _ _ H1 R1), (channel_value _ _ H2 R2),
    (channel_value _ _ H3 R3).
  reflexivity.
Qed.

(** X23.  No public method but [close] closes a descriptor or changes
    the descriptor, the ownership flag or the initial attribute set of
    the object: after any caller, however it ended, all four are as
    before. *)
Theorem callers_never_close_or_rebind (c : client) (s : state) :
  fd (self (snd (run c s))) = fd (self s)
  /\ close_fd (self (snd (run c s))) = close_fd (self s)
  /\ _initial_attr (self (snd (run c s))) = _initial_attr (self s)
  /\ ttys (os (snd (run c s))) = ttys (os s).
Proof. apply keeps_run. Qed.

(** *** The window size, value by value *)








(** *** Text payloads *)

(** Six bits of a code point and what is above them. *)
Lemma six_bits (c : N) :
  (N.land c 0x3F < 64 /\ c = 64 * N.shiftr c 6 + N.land c 0x3F)%N.
Proof.
  change 0x3F%N with (N.ones 6). rewrite N.land_ones, N.shiftr_div_pow2.
  change (2 ^ 6)%N with 64%N.
  split; [apply N.mod_lt; lia | apply N.div_mod; lia].
Qed.

(** Bits put above [n] low ones. *)
Lemma lor_shiftl (h x n : N) :
  (x < 2 ^ n)%N -> N.lor (N.shiftl h n) x = (h * 2 ^ n + x)%N.
Proof.
  intros Hx.
  assert (Hd : N.land (N.shiftl h n) x = 0%N).
  { apply N.bits_inj_0. intros i. rewrite N.land_spec.
    destruct (N.lt_ge_cases i n) as [Hi|Hi].
    - rewrite N.shiftl_spec_low by exact Hi. reflexivity.
    - rewrite <- (N.mod_small x (2 ^ n)) by exact Hx.
      rewrite N.mod_pow2_bits_high by exact Hi. apply andb_false_r. }
  rewrite <- N.lxor_lor by exact Hd.
  rewrite <- N.add_nocarry_lxor by exact Hd.
  rewrite N.shiftl_mul_pow2. reflexivity.
Qed.

Lemma shiftr_12 (c : N) : N.shiftr (N.shiftr c 6) 6 = N.shiftr c 12.
Proof. rewrite N.shiftr_shiftr. reflexivity. Qed.

Lemma shiftr_18 (c : N) : N.shiftr (N.shiftr c 12) 6 = N.shiftr c 18.
Proof. rewrite N.shiftr_shiftr. reflexivity. Qed.

Lemma all_below_spec (f : N -> bool) (k : nat) :
  all_below k f = true -> forall x, (x < N.of_nat k)%N -> f x = true.
Proof.
  induction k as [|k IH]; intros H x Hx; [lia|].
  cbn [all_below] in H. apply andb_true_iff in H as [H0 H1].
  destruct (N.eq_dec x (N.of_nat k)) as [->|Hne]; [exact H0|].
  apply (IH H1). lia.
Qed.

(** A continuation octet is read back as its six bits. *)
Lemma continuation_octet (x : N) :
  (x < 64)%N -> continuation (octet (N.lor 0x80 x)) = Some x.
Proof.
  intros Hx.
  assert (H : all_below 64
                (fun x => bool_decide (continuation (octet (N.lor 0x80 x)) = Some x))
              = true) by (vm_compute; reflexivity).
  apply (all_below_spec _ _ H) in Hx. apply bool_decide_eq_true in Hx. exact Hx.
Qed.

Lemma lead2 (h : N) : (h < 32)%N -> is_lead 0xC0 0x1F 0xC0 0xE0 h = true.
Proof.
  assert (H : all_below 32 (is_lead 0xC0 0x1F 0xC0 0xE0) = true)
    by (vm_compute; reflexivity).
  apply (all_below_spec _ _ H).
Qed.

Lemma lead3 (h : N) : (h < 16)%N -> is_lead 0xE0 0x0F 0xE0 0xF0 h = true.
Proof.
  assert (H : all_below 16 (is_lead 0xE0 0x0F 0xE0 0xF0) = true)
    by (vm_compute; reflexivity).
  apply (all_below_spec _ _ H).
Qed.

Lemma lead4 (h : N) : (h < 8)%N -> is_lead 0xF0 0x07 0xF0 0xF8 h = true.
Proof.
  assert (H : all_below 8 (is_lead 0xF0 0x07 0xF0 0xF8) = true)
    by (vm_compute; reflexivity).
  apply (all_below_spec _ _ H).
Qed.

Ltac lead_facts H :=
  unfold is_lead in H; cbv zeta in H;
  apply andb_true_iff in H as [H ?]; apply andb_true_iff in H as [? ?];
  repeat match goal with
         | X : (_ <=? _)%N = true |- _ => apply N.leb_le in X
         | X : (_ <? _)%N = true |- _ => apply N.ltb_lt in X
         | X : (_ =? _)%N = true |- _ => apply N.eqb_eq in X
         end.

Ltac decide_ltb :=
  repeat match goal with
         | |- context [(?a <? ?b)%N] =>
             first [ rewrite (proj2 (N.ltb_lt a b)) by lia
                   | rewrite (proj2 (N.ltb_ge a b)) by lia ]
         | |- context [(?a <=? ?b)%N] =>
             first [ rewrite (proj2 (N.leb_le a b)) by lia
                   | rewrite (proj2 (N.leb_gt a b)) by lia ]
         end.

(** One code point, written and read back. *)
Lemma decode_encode_char (c : N) (x rest : bytes) :
  encode_char c = Val x -> decode_one (x ++ rest) = Some (c, rest).
Proof.
  unfold encode_char.
  destruct (N.ltb_spec c 0x80) as [H1|H1].
  { intros [= <-]. cbn [app decode_one].
    rewrite to_N_octet, N.mod_small by lia. cbv zeta.
    rewrite (proj2 (N.ltb_lt c 0x80)) by exact H1. reflexivity. }
  destruct (six_bits c) as [L0 E0].
  destruct (N.ltb_spec c 0x800) as [H2|H2].
  { intros [= <-]. cbn [app decode_one].
    pose proof (lead2 (N.shiftr c 6) ltac:(lia)) as Hl. lead_facts Hl.
    cbv zeta. decide_ltb.
    rewrite continuation_octet by exact L0.
    match goal with X : N.land _ _ = _ |- _ => rewrite X end.
    rewrite (lor_shiftl _ _ 6) by exact L0. change (2 ^ 6)%N with 64%N.
    replace (N.shiftr c 6 * 64 + N.land c 63)%N with c by lia.
    decide_ltb. reflexivity. }
  destruct (six_bits (N.shiftr c 6)) as [L1 E1].
  destruct (N.ltb_spec c 0x10000) as [H3|H3].
  { destruct ((0xD800 <=? c) && (c <=? 0xDFFF))%N eqn:Hs; [discriminate|].
    intros [= <-]. cbn [app decode_one].
    rewrite shiftr_12 in E1.
    pose proof (lead3 (N.shiftr c 12) ltac:(lia)) as Hl. lead_facts Hl.
    cbv zeta. decide_ltb.
    rewrite !continuation_octet by assumption.
    match goal with X : N.land _ _ = _ |- _ => rewrite X end.
    rewrite (lor_shiftl _ _ 6) by exact L0. change (2 ^ 6)%N with 64%N.
    rewrite (lor_shiftl _ _ 12) by (change (2 ^ 12)%N with 4096%N; lia).
    change (2 ^ 12)%N with 4096%N.
    replace (N.shiftr c 12 * 4096 + (N.land (N.shiftr c 6) 63 * 64 + N.land c 63))%N
      with c by lia.
    decide_ltb. rewrite Hs. reflexivity. }
  destruct (six_bits (N.shiftr (N.shiftr c 6) 6)) as [L2 E2].
  destruct (N.ltb_spec c 0x110000) as [H4|H4]; [|discriminate].
  intros [= <-]. cbn [app decode_one].
  rewrite shiftr_12 in E1, E2, L2. rewrite shiftr_18 in E2.
  pose proof (lead4 (N.shiftr c 18) ltac:(lia)) as Hl. lead_facts Hl.
  cbv zeta. decide_ltb.
  rewrite !continuation_octet by assumption.
  match goal with X : N.land _ _ = _ |- _ => rewrite X end.
  rewrite (lor_shiftl _ _ 6) by exact L0. change (2 ^ 6)%N with 64%N.
  rewrite (lor_shiftl _ _ 12) by (change (2 ^ 12)%N with 4096%N; lia).
  change (2 ^ 12)%N with 4096%N.
  rewrite (lor_shiftl _ _ 18) by (change (2 ^ 18)%N with 262144%N; lia).
  change (2 ^ 18)%N with 262144%N.
  replace (N.shiftr c 18 * 262144
           + (N.land (N.shiftr c 12) 63 * 4096
              + (N.land (N.shiftr c 6) 63 * 64 + N.land c 63)))%N
    with c by lia.
  decide_ltb. reflexivity.
Qed.

Lemma encode_char_nonempty (c : N) (x : bytes) :
  encode_char c = Val x -> (1 <= length x)%nat.
Proof.
  unfold encode_char.
  repeat match goal with
         | |- context [if ?t then _ else _] => destruct t
         end; intros [= <-] || discriminate; cbn; lia.
Qed.

Lemma decode_loop_encode (text : str) :
  forall (data : bytes) (fuel : nat),
    encode_utf8 text = Val data ->
    (length data <= fuel)%nat ->
    decode_loop fuel data = Some text.
Proof.
  induction text as [|c t IH]; intros data fuel Henc Hfuel.
  - cbn in Henc. injection Henc as <-. destruct fuel; reflexivity.
  - cbn [encode_utf8] in Henc.
    destruct (encode_char c) as [x|e] eqn:Hc; [|discriminate].
    destruct (encode_utf8 t) as [xs|e] eqn:Ht; [|discriminate].
    cbn [res_bind] in Henc. injection Henc as <-.
    pose proof (encode_char_nonempty _ _ Hc) as Hx.
    rewrite length_app in Hfuel.
    destruct fuel as [|fuel]; [lia|].
    destruct x as [|x0 x]; [cbn in Hx; lia|].
    cbn [decode_loop app].
    change (x0 :: x ++ xs) with ((x0 :: x) ++ xs).
    rewrite (decode_encode_char _ _ _ Hc).
    rewrite (IH xs fuel eq_refl) by (cbn [length] in Hfuel; lia).
    reflexivity.
Qed.

(** The octets [encode_utf8] produces are UTF-8: the decoder of the
    standard reads them back as the text. *)
Lemma decode_encode_utf8 (text : str) (data : bytes) :
  encode_utf8 text = Val data -> decode_utf8 data = Some text.
Proof. intros H. apply (decode_loop_encode text data _ H). reflexivity. Qed.

Lemma octet_to_N (c : byte) : octet (Byte.to_N c) = c.
Proof. destruct c; reflexivity. Qed.

(** The six bits of a continuation octet give the octet back. *)
Lemma continuation_inv (c1 : byte) (x : N) :
  continuation c1 = Some x -> (x < 64)%N /\ octet (N.lor 0x80 x) = c1.
Proof.
  destruct c1; cbn; (discriminate || (intros [= <-]; split; reflexivity)).
Qed.

Lemma lead2_back (c0 : byte) : lead_back 0xC0 0x1F 0xC0 0xE0 c0 = true.
Proof. destruct c0; reflexivity. Qed.

Lemma lead3_back (c0 : byte) : lead_back 0xE0 0x0F 0xE0 0xF0 c0 = true.
Proof. destruct c0; reflexivity. Qed.

Lemma lead4_back (c0 : byte) : lead_back 0xF0 0x07 0xF0 0xF8 c0 = true.
Proof. destruct c0; reflexivity. Qed.

Lemma lead_back_octet (tag mask lo hi : N) (c0 : byte) :
  lead_back tag mask lo hi c0 = true ->
  (lo <= Byte.to_N c0)%N -> (Byte.to_N c0 < hi)%N ->
  octet (N.lor tag (N.land (Byte.to_N c0) mask)) = c0
  /\ (N.land (Byte.to_N c0) mask <= mask)%N.
Proof.
  unfold lead_back. cbv zeta. intros H Hlo Hhi.
  rewrite (proj2 (N.leb_le _ _) Hlo), (proj2 (N.ltb_lt _ _) Hhi) in H.
  cbn [andb] in H. apply andb_true_iff in H as [H1 H2].
  split; [apply Byte.byte_dec_bl, H1 | apply N.leb_le, H2].
Qed.

(** What the decoder reads as one code point is the encoding of that
    code point. *)
Lemma decode_one_inv (s rest : bytes) (c : N) :
  decode_one s = Some (c, rest) ->
  exists x, encode_char c = Val x /\ s = x ++ rest.
Proof.
  destruct s as [|c0 t]; [discriminate|].
  unfold decode_one. cbv zeta.
  destruct (N.ltb_spec (Byte.to_N c0) 0x80) as [A1|A1].
  { intros [= <- <-]. exists [c0]. unfold encode_char.
    rewrite (proj2 (N.ltb_lt _ _) A1), octet_to_N. auto. }
  destruct (N.ltb_spec (Byte.to_N c0) 0xC0) as [A2|A2]; [discriminate|].
  destruct (N.ltb_spec (Byte.to_N c0) 0xE0) as [A3|A3].
  { destruct t as [|c1 t1]; [discriminate|].
    destruct (continuation c1) as [x1|] eqn:C1; [|discriminate].
    apply continuation_inv in C1 as [L1 O1].
    destruct (lead_back_octet _ _ _ _ c0 (lead2_back c0) A2 A3) as [O0 L0].
    set (h := N.land (Byte.to_N c0) 0x1F) in *.
    rewrite (lor_shiftl _ _ 6) by exact L1. change (2 ^ 6)%N with 64%N.
    destruct (N.ltb_spec (h * 64 + x1) 0x80) as [B|B]; [discriminate|].
    intros [= <- <-].
    destruct (six_bits (h * 64 + x1)) as [S0 S1].
    assert (E1 : N.shiftr (h * 64 + x1) 6 = h) by lia.
    assert (E0 : N.land (h * 64 + x1) 0x3F = x1) by lia.
    exists [c0; c1]. unfold encode_char.
    rewrite (proj2 (N.ltb_ge _ _) B).
    rewrite (proj2 (N.ltb_lt (h * 64 + x1) 0x800)) by lia.
    rewrite E1, E0, O0, O1. auto. }
  destruct (N.ltb_spec (Byte.to_N c0) 0xF0) as [A4|A4].
  { destruct t as [|c1 [|c2 t2]]; try discriminate.
    destruct (continuation c1) as [x1|] eqn:C1; [|discriminate].
    destruct (continuation c2) as [x2|] eqn:C2; [|discriminate].
    apply continuation_inv in C1 as [L1 O1].
    apply continuation_inv in C2 as [L2 O2].
    destruct (lead_back_octet _ _ _ _ c0 (lead3_back c0) A3 A4) as [O0 L0].
    set (h := N.land (Byte.to_N c0) 0x0F) in *.
    rewrite (lor_shiftl _ _ 6) by exact L2. change (2 ^ 6)%N with 64%N.
    rewrite (lor_shiftl _ _ 12) by (change (2 ^ 12)%N with 4096%N; lia).
    change (2 ^ 12)%N with 4096%N.
    set (v := (h * 4096 + (x1 * 64 + x2))%N).
    destruct (N.ltb_spec v 0x800) as [B|B]; [discriminate|].
    destruct ((0xD800 <=? v) && (v <=? 0xDFFF))%N eqn:Hs; [discriminate|].
    intros [= <- <-].
    destruct (six_bits v) as [S0 S1].
    destruct (six_bits (N.shiftr v 6)) as [T0 T1].
    rewrite shiftr_12 in T1.
    assert (E2 : N.shiftr v 12 = h) by (subst v; lia).
    assert (E1 : N.land (N.shiftr v 6) 0x3F = x1) by (subst v; lia).
    assert (E0 : N.land v 0x3F = x2) by (subst v; lia).
    exists [c0; c1; c2]. unfold encode_char.
    rewrite (proj2 (N.ltb_ge v 0x80)) by lia.
    rewrite (proj2 (N.ltb_ge _ _) B).
    rewrite (proj2 (N.ltb_lt v 0x10000)) by (subst v; lia).
    rewrite Hs, E2, E1, E0, O0, O1, O2. auto. }
  destruct (N.ltb_spec (Byte.to_N c0) 0xF8) as [A5|A5]; [|discriminate].
  destruct t as [|c1 [|c2 [|c3 t3]]]; try discriminate.
  destruct (continuation c1) as [x1|] eqn:C1; [|discriminate].
  destruct (continuation c2) as [x2|] eqn:C2; [|discriminate].
  destruct (continuation c3) as [x3|] eqn:C3; [|discriminate].
  apply continuation_inv in C1 as [L1 O1].
  apply continuation_inv in C2 as [L2 O2].
  apply continuation_inv in C3 as [L3 O3].
  destruct (lead_back_octet _ _ _ _ c0 (lead4_back c0) A4 A5) as [O0 L0].
  set (h := N.land (Byte.to_N c0) 0x07) in *.
  rewrite (lor_shiftl _ _ 6) by exact L3. change (2 ^ 6)%N with 64%N.
  rewrite (lor_shiftl _ _ 12) by (change (2 ^ 12)%N with 4096%N; lia).
  change (2 ^ 12)%N with 4096%N.
  rewrite (lor_shiftl _ _ 18) by (change (2 ^ 18)%N with 262144%N; lia).
  change (2 ^ 18)%N with 262144%N.
  set (v := (h * 262144 + (x1 * 4096 + (x2 * 64 + x3)))%N).
  destruct (N.ltb_spec v 0x10000) as [B|B]; [discriminate|].
  destruct (N.ltb_spec 0x10FFFF v) as [B'|B']; [discriminate|].
  intros [= <- <-].
  destruct (six_bits v) as [S0 S1].
  destruct (six_bits (N.shiftr v 6)) as [T0 T1].
  destruct (six_bits (N.shiftr v 12)) as [U0 U1].
  rewrite shiftr_12 in T1. rewrite shiftr_18 in U1.
  assert (E3 : N.shiftr v 18 = h) by (subst v; lia).
  assert (E2 : N.land (N.shiftr v 12) 0x3F = x1) by (subst v; lia).
  assert (E1 : N.land (N.shiftr v 6) 0x3F = x2) by (subst v; lia).
  assert (E0 : N.land v 0x3F = x3) by (subst v; lia).
  exists [c0; c1; c2; c3]. unfold encode_char.
  rewrite (proj2 (N.ltb_ge v 0x80)) by lia.
  rewrite (proj2 (N.ltb_ge v 0x800)) by lia.
  rewrite (proj2 (N.ltb_ge _ _) B).
  rewrite (proj2 (N.ltb_lt v 0x110000)) by lia.
  rewrite E3, E2, E1, E0, O0, O1, O2, O3. auto.
Qed.

Lemma decode_loop_inv (fuel : nat) :
  forall (data : bytes) (text : str),
    decode_loop fuel data = Some text -> encode_utf8 text = Val data.
Proof.
  induction fuel as [|fuel IH]; intros data text; destruct data as [|c0 t];
    cbn [decode_loop]; try discriminate; try (intros [= <-]; reflexivity).
  destruct (decode_one (c0 :: t)) as [[c rest]|] eqn:Hd; [|discriminate].
  destruct (decode_loop fuel rest) as [cs|] eqn:Hl; [|discriminate].
  intros [= <-].
  apply decode_one_inv in Hd as (x & Hx & ->).
  cbn [encode_utf8]. rewrite Hx, (IH _ _ Hl). reflexivity.
Qed.

(** The encoder and the decoder of the standard are inverse to each
    other: [data] is the encoding of [text] exactly when the decoder
    reads [data] as [text]. *)
Lemma encode_utf8_decode (text : str) (data : bytes) :
  encode_utf8 text = Val data <-> decode_utf8 data = Some text.
Proof.
  split; [apply decode_encode_utf8 | apply decode_loop_inv].
Qed.

(** The reference vectors of the encoding: one code point for each
    length, and octets that are no UTF-8. *)
Example utf8_vectors :
  encode_utf8 [0x41%N] = Val [x41]
  /\ encode_utf8 [0xE9%N] = Val [xc3; xa9]
  /\ encode_utf8 [0x20AC%N] = Val [xe2; x82; xac]
  /\ encode_utf8 [0x1F600%N] = Val [xf0; x9f; x98; x80]
  /\ encode_utf8 [0x7F%N; 0x80%N; 0x7FF%N; 0x800%N; 0xFFFF%N; 0x10000%N; 0x10FFFF%N]
     = Val [x7f; xc2; x80; xdf; xbf; xe0; xa0; x80; xef; xbf; xbf;
            xf0; x90; x80; x80; xf4; x8f; xbf; xbf].
Proof. repeat split. Qed.

Example utf8_refused :
  decode_utf8 [xff] = None
  /\ decode_utf8 [xc0; x80] = None
  /\ decode_utf8 [xe0; x80; x80] = None
  /\ decode_utf8 [xed; xa0; x80] = None
  /\ decode_utf8 [xf4; x90; x80; x80] = None
  /\ decode_utf8 [xc3] = None
  /\ decode_utf8 [x80] = None.
Proof. repeat split. Qed.

(** What is sent for a payload of bytes. *)
Lemma bytes_payload_sent (raw : bytes) (timeout : option Q) (s : state) :
  (exists rest,
     trace (os (snd (write (Bytes raw) s))) =
       trace (os s) ++ Write (fd (self s)) raw :: rest)
  /\ (is_open (fd (self s)) (os s) = true ->
      (exists calls,
         trace (os (snd (query (Bytes raw) timeout s))) = trace (os s) ++ calls
         /\ List.filter is_write calls = [Write (fd (self s)) raw])
      /\ sent (os (snd (query (Bytes raw) timeout s)))
         = sent (os s) ++ take (accepted (os s) raw) raw
      /\ (willing (os s) = true ->
          sent (os (snd (write (Bytes raw) s))) = sent (os s) ++ raw)).
Proof.
  split; [apply write_first_call|].
  intros Hopen.
  destruct (query_writes_once (Bytes raw) raw timeout s eq_refl Hopen)
    as (calls & Ht & Hf & Hs).
  split; [exists calls; auto|]. split; [exact Hs|].
  intros Hw. apply (write_willing (Bytes raw) raw s eq_refl Hopen Hw).
Qed.

(** C10.  A text payload is transmitted as its UTF-8 encoding and a
    bytes payload as it is.  For a text that [encode] turns into
    [data]: [data] is UTF-8 for the text, being the one sequence of
    octets that the decoder of the standard reads as the text; [query]
    and [write] behave on the text exactly as on [data]; the first
    call of [write] hands [data] to the descriptor; on an open
    terminal the one write call of [query] carries [data], whatever
    the timeout, and what reaches the terminal is the part of [data]
    that the device took, all of [data] for [write] on a device that
    takes at least one octet per call.  The same holds of every bytes
    payload [raw], UTF-8 or not: it is the argument of the write call
    and what reaches the terminal. *)
Theorem text_payload_sent_as_utf8 (text : str) (data : bytes)
    (timeout : option Q) (s : state) :
  encode_utf8 text = Val data ->
  (forall d : bytes, decode_utf8 d = Some text <-> d = data)
  /\ query (Str text) timeout s = query (Bytes data) timeout s
  /\ write (Str text) s = write (Bytes data) s
  /\ (exists rest,
        trace (os (snd (write (Str text) s))) =
          trace (os s) ++ Write (fd (self s)) data :: rest)
  /\ (is_open (fd (self s)) (os s) = true ->
      (exists calls,
         trace (os (snd (query (Str text) timeout s))) = trace (os s) ++ calls
         /\ List.filter is_write calls = [Write (fd (self s)) data])
      /\ sent (os (snd (query (Str text) timeout s)))
         = sent (os s) ++ take (accepted (os s) data) data
      /\ (willing (os s) = true ->
          sent (os (snd (write (Str text) s))) = sent (os s) ++ data))
  /\ (forall raw : bytes,
        as_bytes (Bytes raw) = Val raw
        /\ (exists rest,
              trace (os (snd (write (Bytes raw) s))) =
                trace (os s) ++ Write (fd (self s)) raw :: rest)
        /\ (is_open (fd (self s)) (os s) = true ->
            (exists calls,
               trace (os (snd (query (Bytes raw) timeout s)))
               = trace (os s) ++ calls
               /\ List.filter is_write calls = [Write (fd (self s)) raw])
            /\ sent (os (snd (query (Bytes raw) timeout s)))
               = sent (os s) ++ take (accepted (os s) raw) raw
            /\ (willing (os s) = true ->
                sent (os (snd (write (Bytes raw) s))) = sent (os s) ++ raw))).
Proof.
  intros Henc.
  assert (Hq : query (Str text) timeout s = query (Bytes data) timeout s).
  { unfold query, as_bytes. rewrite Henc. reflexivity. }
  assert (Hw : write (Str text) s = write (Bytes data) s).
  { unfold write, as_bytes. rewrite Henc. reflexivity. }
  split.
  { intros d. split.
    - intros Hd. apply encode_utf8_decode in Hd. congruence.
    - intros ->. apply encode_utf8_decode, Henc. }
  split; [exact Hq|]. split; [exact Hw|].
  rewrite Hq, Hw.
  destruct (bytes_payload_sent data timeout s) as [H1 H2].
  split; [exact H1|]. split; [exact H2|].
  intros raw. split; [reflexivity|]. apply bytes_payload_sent.
Qed.

(** C10 on a text outside ASCII and on the octet [0xFF], which is no
    UTF-8. *)
Lemma text_payload_sent_as_utf8_witness :
  encode_utf8 accents = Val accents_bytes
  /\ decode_utf8 accents_bytes = Some accents
  /\ sent (os (snd (query (Str accents) default_timeout
                          (fresh (tty_world None [] [])))))
     = accents_bytes
  /\ sent (os (snd (write (Str accents) (fresh (tty_world None [] [])))))
     = accents_bytes
  /\ sent (os (snd (query (Bytes [xff]) default_timeout
                          (fresh (tty_world None [] [])))))
     = [xff]
  /\ sent (os (snd (write (Bytes [xff]) (fresh (tty_world None [] [])))))
     = [xff].
Proof.
  destruct (text_payload_sent_as_utf8 accents accents_bytes default_timeout
              (fresh (tty_world None [] [])) eq_refl)
    as (Hd & _ & _ & _ & Hs & Hraw).
  destruct (Hs eq_refl) as (_ & Hq & Hw).
  destruct (Hraw [xff]) as (_ & _ & Hr).
  destruct (Hr eq_refl) as (_ & Hrq & Hrw).
  split; [reflexivity|]. split; [exact (proj2 (Hd accents_bytes) eq_refl)|].
  split; [exact Hq|]. split; [exact (Hw eq_refl)|].
  split; [exact Hrq|exact (Hrw eq_refl)].
Defined.

(** *** The further properties on sample terminals *)

(** X1 on descriptor 5, which is not open, and on the number [2^31],
    which is no descriptor. *)
Lemma terminal_context_not_a_terminal_witness :
  is_open 5 (tty_world None [] []) = false
  /\ fst (terminal_context 5 failing_body (tty_world None [] [])) = Exc TypeError
  /\ is_open (2 ^ 31) (tty_world None [] []) = false
  /\ fst (terminal_context (2 ^ 31) failing_body (tty_world None [] []))
     = Exc OverflowError.
Proof.
  split; [reflexivity|]. split; [|split; [reflexivity|]].
  - rewrite (terminal_context_not_a_terminal 5 failing_body
               (tty_world None [] []) eq_refl).
    reflexivity.
  - rewrite (terminal_context_not_a_terminal (2 ^ 31) failing_body
               (tty_world None [] []) eq_refl).
    reflexivity.
Defined.

(** X2 around a caller that switches the echo off. *)
Lemma terminal_context_restores_witness :
  is_open 0 (tty_world None [] []) = true
  /\ attr (snd (terminal_context 0 (run stty_then_query) (tty_world None [] [])))
     = sane.
Proof.
  split; [reflexivity|].
  apply (terminal_context_restores 0 stty_then_query (tty_world None [] [])
           eq_refl).
Defined.

(** X3 with a kernel that hands out descriptor 3. *)
Lemma cterminal_context_closes_what_it_opened_witness :
  is_open 3 (tty_world None [] []) = false
  /\ ttys (snd (cterminal_context (fun _ => 3) (run stty_then_query)
                                  (tty_world None [] [])))
     = ttys (tty_world None [] []).
Proof.
  split; [reflexivity|].
  apply (cterminal_context_closes_what_it_opened (fun _ => 3) stty_then_query
           (tty_world None [] []) eq_refl).
Defined.

(** X4 on a handle that owns descriptor 0. *)
Lemma close_twice_witness :
  is_open 0 (tty_world None [] []) = true
  /\ fst (close (snd (close (owner (tty_world None [] []))))) = Exc TermiosError.
Proof.
  split; [reflexivity|].
  apply (close_twice (owner (tty_world None [] [])) eq_refl).
Defined.

(** X5 on descriptor 7, which is not open. *)
Lemma cbreak_mode_closed_descriptor_witness :
  is_open 7 (tty_world None [] []) = false
  /\ fst (query (Str csi18) default_timeout
                (State (Handle false 7 false sane) (tty_world None [] [])))
     = Exc TermiosError.
Proof.
  split; [reflexivity|].
  rewrite (proj1 (proj2 (cbreak_mode_closed_descriptor failing_body
             (State (Handle false 7 false sane) (tty_world None [] []))
             (Str csi18) 1 default_timeout eq_refl eq_refl))).
  reflexivity.
Defined.

(** X6 on a handle that owns descriptor 0. *)
Lemma close_inside_cbreak_scope_witness :
  is_open 0 (tty_world None [] []) = true
  /\ fst (cbreak_mode close (owner (tty_world None [] []))) = Exc TermiosError
  /\ is_cbreak (self (snd (cbreak_mode close (owner (tty_world None [] []))))) = true.
Proof.
  split; [reflexivity|].
  destruct (close_inside_cbreak_scope (owner (tty_world None [] []))
              eq_refl eq_refl) as (H1 & H2 & _).
  split; [exact H1|exact H2].
Defined.





(** X11 on a lone surrogate. *)
Lemma query_unencodable_text_witness :
  encode_utf8 [0xd800%N] = Exc UnicodeEncodeError
  /\ fst (query (Str [0xd800%N]) default_timeout (fresh (tty_world None [] [])))
     = Exc UnicodeEncodeError
  /\ sent (os (snd (query (Str [0xd800%N]) default_timeout
                          (fresh (tty_world None [] []))))) = [].
Proof.
  split; [reflexivity|].
  destruct (query_unencodable_text [0xd800%N] UnicodeEncodeError default_timeout
              (fresh (tty_world None [] [])) eq_refl eq_refl)
    as (H1 & _ & _ & H4 & _).
  split; [exact H1|exact H4].
Defined.


(** X13 on a slow terminal. *)
Lemma write_only_writes_a_prefix_witness :
  as_bytes (Str csi18) = Val csi18_bytes
  /\ attr (os (snd (write (Str csi18) slow_state))) = sane.
Proof.
  split; [reflexivity|].
  destruct (write_only_writes_a_prefix (Str csi18) csi18_bytes slow_state
              eq_refl) as (calls & k & _ & _ & _ & _ & H & _).
  exact H.
Defined.

(** X14 on a slow terminal. *)
Lemma write_sends_everything_witness :
  willing (os slow_state) = true
  /\ sent (os (snd (write (Str csi18) slow_state))) = csi18_bytes.
Proof.
  split; [reflexivity|].
  apply (write_sends_everything (Str csi18) csi18_bytes slow_state
           eq_refl eq_refl eq_refl).
Defined.

(** X15 on a terminal that takes nothing. *)
Lemma write_gives_up_on_stalled_device_witness :
  accepts (os stalled_state) = [0%nat]
  /\ fst (write (Str csi18) stalled_state) = Val tt
  /\ sent (os (snd (write (Str csi18) stalled_state))) = [].
Proof.
  split; [reflexivity|].
  destruct (write_gives_up_on_stalled_device (Str csi18) csi18_bytes []
              stalled_state eq_refl eq_refl eq_refl) as (H1 & H2 & _).
  split; [exact H1|exact H2].
Defined.

(** X16 with a body that raises and an undo that shows the cursor. *)
Lemma custom_state_undo_on_every_exit_witness :
  willing (os (snd (failing_body (fresh (tty_world None [] []))))) = true
  /\ fst (custom_state (Some (write (Bytes show_cursor))) failing_body
            (fresh (tty_world None [] []))) = Exc (UserError 1)
  /\ sent (os (snd (custom_state (Some (write (Bytes show_cursor))) failing_body
                      (fresh (tty_world None [] [])))))
     = b "x" ++ show_cursor.
Proof.
  split; [reflexivity|].
  destruct (custom_state_undo_on_every_exit failing_body show_cursor
              (fresh (tty_world None [] [])) eq_refl eq_refl) as (H1 & H2 & _).
  split; [exact H1|exact H2].
Defined.

(** X17 on a terminal of 24 rows, 80 columns and 640 by 480 pixels. *)
Lemma get_size_from_ioctl_alone_witness :
  winsize (os (fresh (tty_world (Some (24, 80, 640, 480)) [] [])))
    = Some (24, 80, 640, 480)
  /\ fst (get_size (fresh (tty_world (Some (24, 80, 640, 480)) [] [])))
     = Val (80, 24, 640, 480).
Proof.
  split; [reflexivity|].
  rewrite (get_size_from_ioctl_alone
             (fresh (tty_world (Some (24, 80, 640, 480)) [] []))
             24 80 640 480 eq_refl eq_refl); [reflexivity|lia..].
Defined.




(** X21 on palette slot 7. *)
Lemma query_color_request_witness :
  encode_utf8 (u "7") = Val (b "7")
  /\ osc_request (u "7") (b "7") = ESC :: b "]4;7;?" ++ [ESC; BSL]
  /\ exists calls,
       trace (os (snd (query_color (u "7") (fresh (tty_world None [] [])))))
         = [] ++ calls
       /\ List.filter is_write calls = [Write 0 (osc_request (u "7") (b "7"))].
Proof.
  split; [reflexivity|]. split; [reflexivity|].
  destruct (query_color_request (u "7") (b "7") (fresh (tty_world None [] []))
              eq_refl eq_refl) as (calls & H1 & H2 & _).
  exists calls. split; [exact H1|exact H2].
Defined.

(** X22 on palette slot 12, channels in three notations, ended by
    BEL. *)
Lemma color_of_report_any_notation_witness :
  length (b "4;12;") = S (code_length (u "12"))
  /\ color_of_report (u "12")
       (osc_reply (b "4;12;") (b "FFFF") (b "0x80_00") (b " 12 ") [BEL])
     = Val (Some (u "#ff8000")).
Proof.
  split; [reflexivity|].
  apply (color_of_report_any_notation (u "12") (b "4;12;") (b "FFFF")
           (b "0x80_00") (b " 12 ") [BEL] 65535 32768 18
           eq_refl (or_intror eq_refl) eq_refl eq_refl eq_refl); lia.
Defined.
